(** * Change detection and checker-output parsing of the Clarity
      verification action: a shallow embedding and its properties.

    The development follows the TypeScript sources:
    - [utils]   : [isFillerLine];
    - [git/parser.ts]   : [parseClarityFunctions],
      [compareAndIdentifyChanges], [detectChangedFunctions];
    - [esbmc/runner.ts] : [parseESBMCOutput], [parseFailingFunctions];
    - [sarif/generator.ts] : [mapTitleToRuleId], [convertToSARIFResults].

    JavaScript strings are modelled as [string]: one [ascii] stands for
    one UTF-16 code unit below 256.  JavaScript numbers that hold line
    numbers are modelled as [Z] (nat for the 1-based positions the
    boundary parser computes itself). *)

From Stdlib Require Import String Ascii List ZArith Bool Arith Lia.
From Stdlib Require Import Sorted Permutation.
From Stdlib Require DecimalString.
Import ListNotations.

Local Open Scope string_scope.
Local Open Scope nat_scope.
Local Open Scope list_scope.

(* ================================================================= *)
(** ** The JavaScript string primitives the sources rely on *)

Module JS.

(** [WhiteSpace] and [LineTerminator] of ECMAScript, restricted to code
    units below 256: TAB, LF, VT, FF, CR, SPACE and NBSP.  This is the
    set stripped by [String.prototype.trim] and matched by [\s]. *)
Definition isWhiteSpace (c : ascii) : bool :=
  let n := nat_of_ascii c in
  ((9 <=? n) && (n <=? 13)) || (n =? 32) || (n =? 160).

Fixpoint trimStart (s : string) : string :=
  match s with
  | EmptyString => EmptyString
  | String c s' => if isWhiteSpace c then trimStart s' else s
  end.

Fixpoint trimEnd (s : string) : string :=
  match s with
  | EmptyString => EmptyString
  | String c s' =>
      match trimEnd s' with
      | EmptyString => if isWhiteSpace c then EmptyString
                       else String c EmptyString
      | t => String c t
      end
  end.

(** [s.trim()] *)
Definition trim (s : string) : string := trimEnd (trimStart s).

(** [s.split(sep)] for a one-character separator; the result is never
    empty: splitting the empty string gives one empty piece. *)
Fixpoint split (sep : ascii) (s : string) : list string :=
  match s with
  | EmptyString => [EmptyString]
  | String c s' =>
      if Ascii.eqb c sep then EmptyString :: split sep s'
      else match split sep s' with
           | [] => [String c EmptyString]
           | h :: t => String c h :: t
           end
  end.

Definition LF : ascii := ascii_of_nat 10.

(** [s.startsWith(p)] *)
Definition startsWith (p s : string) : bool := String.prefix p s.

(** [s.includes(p)] *)
Fixpoint includes (p s : string) : bool :=
  String.prefix p s ||
  match s with
  | EmptyString => false
  | String _ s' => includes p s'
  end.

(** [s || d] on strings: the empty string is the only falsy string. *)
Definition orElse (s d : string) : string :=
  match s with
  | EmptyString => d
  | _ => s
  end.

(** [!s] on strings. *)
Definition isFalsy (s : string) : bool :=
  match s with
  | EmptyString => true
  | _ => false
  end.

Definition isDigit (c : ascii) : bool :=
  let n := nat_of_ascii c in (48 <=? n) && (n <=? 57).

(** [parseInt(s, 10)] on the strings the sources pass to it, which are
    captures of [\d+]: the decimal value of the leading digits.
    (JavaScript stores the value in a double, exact below 2^53.) *)
Fixpoint parseDigits (s : string) (acc : Z) : Z :=
  match s with
  | EmptyString => acc
  | String c s' =>
      if isDigit c
      then parseDigits s' (10 * acc + Z.of_nat (nat_of_ascii c - 48))
      else acc
  end.

Definition parseInt (s : string) : Z := parseDigits s 0.

(** [s.slice(n)] *)
Fixpoint slice (n : nat) (s : string) : string :=
  match n, s with
  | O, _ => s
  | S n', String _ s' => slice n' s'
  | S _, EmptyString => EmptyString
  end.

End JS.

(* ================================================================= *)
(** ** Regular expressions: the fragment used by the two patterns of the
       sources, with the backtracking order of ECMAScript *)

Module RegExp.

(** A pattern is a sequence of nodes.  Quantifiers only occur as [+]
    or [+?] on a character class, alternation only between literals,
    as in the two patterns of the sources. *)
Inductive node : Type :=
| Lit (s : string)                          (* literal text *)
| Plus (greedy : bool) (cls : ascii -> bool) (* [c+] and [c+?] *)
| Alt (alts : list string)                  (* [a|b|c] *)
| GroupOpen (k : nat)                       (* [(] of group k *)
| GroupClose (k : nat).                     (* [)] of group k *)

(** Capture bookkeeping: where each group was opened, and the closed
    groups with their start and end offsets. *)
Record captures : Type := {
  opened : list (nat * nat);
  closed : list (nat * (nat * nat))
}.

Definition noCaptures : captures := {| opened := []; closed := [] |}.

Fixpoint assoc {A} (k : nat) (l : list (nat * A)) : option A :=
  match l with
  | [] => None
  | (k', v) :: l' => if Nat.eqb k k' then Some v else assoc k l'
  end.

Definition openGroup (k pos : nat) (c : captures) : captures :=
  {| opened := (k, pos) :: opened c; closed := closed c |}.

Definition closeGroup (k pos : nat) (c : captures) : captures :=
  match assoc k (opened c) with
  | Some start =>
      {| opened := opened c; closed := (k, (start, pos)) :: closed c |}
  | None => c
  end.

(** [stripPrefix p s]: the rest of [s] after the literal [p]. *)
Fixpoint stripPrefix (p s : string) : option string :=
  match p with
  | EmptyString => Some s
  | String a p' =>
      match s with
      | EmptyString => None
      | String b s' => if Ascii.eqb a b then stripPrefix p' s' else None
      end
  end.

Section Matcher.
Context {R : Type}.

(** Greedy [c+]: take as many characters as possible, then give
    characters back one at a time until the continuation succeeds. *)
Fixpoint plusGreedy (cls : ascii -> bool)
         (k : string -> nat -> option R) (s : string) (pos : nat)
  : option R :=
  match s with
  | EmptyString => None
  | String c s' =>
      if cls c then
        match plusGreedy cls k s' (S pos) with
        | Some r => Some r
        | None => k s' (S pos)
        end
      else None
  end.

(** Lazy [c+?]: take one character, try the continuation, and take
    one more character each time it fails. *)
Fixpoint plusLazy (cls : ascii -> bool)
         (k : string -> nat -> option R) (s : string) (pos : nat)
  : option R :=
  match s with
  | EmptyString => None
  | String c s' =>
      if cls c then
        match k s' (S pos) with
        | Some r => Some r
        | None => plusLazy cls k s' (S pos)
        end
      else None
  end.

(** Alternatives are tried from left to right. *)
Fixpoint alternatives (alts : list string)
         (k : string -> nat -> option R) (s : string) (pos : nat)
  : option R :=
  match alts with
  | [] => None
  | a :: more =>
      match
        match stripPrefix a s with
        | Some s' => k s' (pos + String.length a)
        | None => None
        end
      with
      | Some r => Some r
      | None => alternatives more k s pos
      end
  end.
End Matcher.

(** [matchHere re c s pos]: match the pattern [re] against [s], whose
    first character sits at offset [pos] of the subject; on success
    the end offset and the captures. *)
Fixpoint matchHere (re : list node) (c : captures) (s : string)
         (pos : nat) : option (nat * captures) :=
  match re with
  | [] => Some (pos, c)
  | Lit l :: re' =>
      match stripPrefix l s with
      | Some s' => matchHere re' c s' (pos + String.length l)
      | None => None
      end
  | Plus true cls :: re' => plusGreedy cls (matchHere re' c) s pos
  | Plus false cls :: re' => plusLazy cls (matchHere re' c) s pos
  | Alt alts :: re' => alternatives alts (matchHere re' c) s pos
  | GroupOpen k :: re' => matchHere re' (openGroup k pos c) s pos
  | GroupClose k :: re' => matchHere re' (closeGroup k pos c) s pos
  end.

(** Leftmost match: the start offsets are tried in increasing order. *)
Fixpoint search (re : list node) (s : string) (start : nat)
  : option (nat * (nat * captures)) :=
  match matchHere re noCaptures s start with
  | Some r => Some (start, r)
  | None =>
      match s with
      | EmptyString => None
      | String _ s' => search re s' (S start)
      end
  end.

(** The result of [s.match(re)] for a pattern without the [g] flag:
    [index] and the text of the capture groups. *)
Record MatchResult : Type := {
  index : nat;
  subject : string;
  groups : list (nat * (nat * nat))
}.

Definition exec (re : list node) (s : string) : option MatchResult :=
  match search re s 0 with
  | Some (start, (_, c)) =>
      Some {| index := start; subject := s; groups := closed c |}
  | None => None
  end.

(** [m[k]] for a group that took part in the match. *)
Definition group (m : MatchResult) (k : nat) : string :=
  match assoc k (groups m) with
  | Some (a, b) => String.substring a (b - a) (subject m)
  | None => EmptyString
  end.

(** Character classes. *)
Definition cls_s : ascii -> bool := JS.isWhiteSpace.            (* \s *)
Definition cls_S (c : ascii) : bool := negb (JS.isWhiteSpace c). (* \S *)
Definition cls_d : ascii -> bool := JS.isDigit.                 (* \d *)
(** [.] : any character but a line terminator. *)
Definition cls_dot (c : ascii) : bool :=
  negb ((nat_of_ascii c =? 10) || (nat_of_ascii c =? 13)).
(** [[^)]] *)
Definition cls_not_rparen (c : ascii) : bool :=
  negb (Ascii.eqb c ")"%char).

End RegExp.

(* ================================================================= *)
(** ** utils *)

Module Utils.

(** [isFillerLine]: a line that is empty or only whitespace. *)
Definition isFillerLine (line : string) : bool :=
  String.eqb (JS.trim line) EmptyString.

End Utils.

(* ================================================================= *)
(** ** git/parser.ts: function boundaries and change detection *)

Module Parser.

Import RegExp.

Record ClarityFunction : Type := {
  name : string;
  type : string;
  startLine : nat;
  endLine : nat;
  content : string;
  file : string
}.

Inductive ChangeType : Type := added | modified | deleted.

(** [ChangedFunction extends ClarityFunction]: the spread
    [{...f, changeType}] copies every field of [f]. *)
Record ChangedFunction : Type := {
  func :> ClarityFunction;
  changeType : ChangeType
}.

(** [/\(define-(public|private|read-only)\s+\(([^)]+)/] *)
Definition functionRegex : list node :=
  [ Lit "(define-";
    GroupOpen 1; Alt ["public"; "private"; "read-only"]; GroupClose 1;
    Plus true cls_s;
    Lit "(";
    GroupOpen 2; Plus true cls_not_rparen; GroupClose 2 ].

(** The two [if]s of the character loops: [(] adds one, [)] removes
    one. *)
Fixpoint countParens (s : string) (openParens : Z) : Z :=
  match s with
  | EmptyString => openParens
  | String c s' =>
      countParens s'
        (if Ascii.eqb c "("%char then (openParens + 1)%Z
         else if Ascii.eqb c ")"%char then (openParens - 1)%Z
         else openParens)
  end.

(** The local variables of [parseClarityFunctions].  [currentFunction]
    is a [Partial<ClarityFunction>]: [endLine] is only meaningful once
    the function has been closed. *)
Record ParseState : Type := {
  inFunction : bool;
  currentFunction : ClarityFunction;
  openParens : Z;
  functionContent : string;
  functions : list ClarityFunction
}.

(** [currentFunction = {}]: no field is read before a header sets it. *)
Definition emptyFunction : ClarityFunction :=
  {| name := EmptyString; type := EmptyString; startLine := 0;
     endLine := 0; content := EmptyString; file := EmptyString |}.

Definition initialParseState : ParseState :=
  {| inFunction := false; currentFunction := emptyFunction;
     openParens := 0%Z; functionContent := EmptyString; functions := [] |}.

(** [currentFunction.endLine = i + 1; currentFunction.content =
    functionContent]. *)
Definition closeFunction (f : ClarityFunction) (i : nat) (text : string)
  : ClarityFunction :=
  {| name := name f; type := type f; startLine := startLine f;
     endLine := i + 1; content := text; file := file f |}.

(** One iteration of the [for] loop over the lines, at index [i]. *)
Definition parseLine (filePath : string) (i : nat) (line : string)
           (st : ParseState) : ParseState :=
  if negb (inFunction st) then
    match exec functionRegex line with
    | Some m =>
        let cur :=
          {| name := hd EmptyString
                        (JS.split " "%char (JS.trim (group m 2)));
             type := group m 1;
             startLine := i + 1;
             endLine := 0;
             content := line;
             file := filePath |} in
        let depth := countParens (JS.slice (index m + 1) line) 1%Z in
        if (depth =? 0)%Z then
          let done := closeFunction cur i line in
          {| inFunction := false; currentFunction := done;
             openParens := depth; functionContent := line;
             functions := functions st ++ [done] |}
        else
          {| inFunction := true; currentFunction := cur;
             openParens := depth; functionContent := line;
             functions := functions st |}
    | None => st
    end
  else
    let text :=
      String.append (functionContent st)
                    (String.append (String JS.LF EmptyString) line) in
    let depth := countParens line (openParens st) in
    if (depth =? 0)%Z then
      let done := closeFunction (currentFunction st) i text in
      {| inFunction := false; currentFunction := done;
         openParens := depth; functionContent := text;
         functions := functions st ++ [done] |}
    else
      {| inFunction := true; currentFunction := currentFunction st;
         openParens := depth; functionContent := text;
         functions := functions st |}.

(** The [for] loop: the lines from index [i] on. *)
Fixpoint parseLines (filePath : string) (lines : list string) (i : nat)
         (st : ParseState) : ParseState :=
  match lines with
  | [] => st
  | line :: rest => parseLines filePath rest (S i)
                               (parseLine filePath i line st)
  end.

Definition parseClarityFunctions (content filePath : string)
  : list ClarityFunction :=
  functions (parseLines filePath (JS.split JS.LF content) 0
                        initialParseState).

(** [l.find((f) => f.name === n)] *)
Definition findByName (n : string) (l : list ClarityFunction)
  : option ClarityFunction :=
  find (fun f => String.eqb (name f) n) l.

Definition compareAndIdentifyChanges
           (baseFunctions headFunctions : list ClarityFunction)
  : list ChangedFunction :=
  flat_map
    (fun baseFunc =>
       match findByName (name baseFunc) headFunctions with
       | None => [ {| func := baseFunc; changeType := deleted |} ]
       | Some headFunc =>
           if negb (String.eqb (content baseFunc) (content headFunc))
           then [ {| func := headFunc; changeType := modified |} ]
           else []
       end)
    baseFunctions
  ++
  flat_map
    (fun headFunc =>
       match findByName (name headFunc) baseFunctions with
       | None => [ {| func := headFunc; changeType := added |} ]
       | Some _ => []
       end)
    headFunctions.

Section Detect.

(** The revision content fetcher is external (it runs git): a function
    from a reference and a path to the text, the empty string standing
    for content that could not be fetched. *)
Variable getFileContent : string -> string -> string.

(** The body of the loop over the files of [detectChangedFunctions]. *)
Definition changesInFile (baseRef headRef file : string)
  : list ChangedFunction :=
  let baseContent := getFileContent baseRef file in
  let headContent := getFileContent headRef file in
  if JS.isFalsy baseContent then
    map (fun f => {| func := f; changeType := added |})
        (parseClarityFunctions headContent file)
  else if JS.isFalsy headContent then
    map (fun f => {| func := f; changeType := deleted |})
        (parseClarityFunctions baseContent file)
  else
    compareAndIdentifyChanges (parseClarityFunctions baseContent file)
                              (parseClarityFunctions headContent file).

(** [detectChangedFunctions] from the list [filteredFiles] on: the list
    itself comes from git and from the exclusion patterns, which are
    external to this development. *)
Definition detectChangedFunctions (baseRef headRef : string)
           (filteredFiles : list string) : list ChangedFunction :=
  flat_map (changesInFile baseRef headRef) filteredFiles.

End Detect.

End Parser.

(* ================================================================= *)
(** ** esbmc/runner.ts: classification of the checker output *)

Module Runner.

Import RegExp.

Record FailureDetails : Type := {
  functionName : string;
  lineNumber : Z;
  title : string;
  failingCode : string
}.

(** The field [functionName] of the source is [resultFunctionName]
    here: [FailureDetails] has a field of that name already. *)
Record ESBMCResult : Type := {
  verified : bool;
  failures : list FailureDetails;
  rawOutput : string;
  clarityFile : string;
  resultFunctionName : string
}.

(** [/State\s+\d+\s+file\s+.+?\s+line\s+(\d+)\s+function\s+(\S+)\s+thread\s+\d+/] *)
Definition stateLineRegex : list node :=
  [ Lit "State"; Plus true cls_s; Plus true cls_d; Plus true cls_s;
    Lit "file"; Plus true cls_s; Plus false cls_dot; Plus true cls_s;
    Lit "line"; Plus true cls_s;
    GroupOpen 1; Plus true cls_d; GroupClose 1; Plus true cls_s;
    Lit "function"; Plus true cls_s;
    GroupOpen 2; Plus true cls_S; GroupClose 2; Plus true cls_s;
    Lit "thread"; Plus true cls_s; Plus true cls_d ].

Definition counterexampleMarker : string := "[Counterexample]".
Definition violatedProperty : string := "Violated property:".

(** The variables of the loop of [parseFailingFunctions]. *)
Record LoopState : Type := {
  i : nat;
  inCounterexampleBlock : bool;
  currentFnName : option string;
  currentLineNumber : option Z;
  results : list FailureDetails
}.

Definition initialLoopState : LoopState :=
  {| i := 0; inCounterexampleBlock := false; currentFnName := None;
     currentLineNumber := None; results := [] |}.

(** [(lines[i] || "").trim()]: an index past the end reads as the empty
    string. *)
Definition lineAt (lines : list string) (i : nat) : string :=
  JS.trim (nth i lines EmptyString).

(** [while (i < lines.length && isFillerLine(line)) { i++; line = ... }]:
    the index where the loop stops.  Every turn adds one to [i], so
    [length lines] turns are always enough. *)
Fixpoint skipFiller (fuel : nat) (lines : list string) (i : nat) : nat :=
  match fuel with
  | O => i
  | S fuel' =>
      if (i <? length lines) && Utils.isFillerLine (lineAt lines i)
      then skipFiller fuel' lines (S i)
      else i
  end.

(** [x ?? d] *)
Definition orDefault {A} (x : option A) (d : A) : A :=
  match x with
  | Some v => v
  | None => d
  end.

(** The block run at a [Violated property:] line: skip to the title,
    skip to the failing code, push the record, close the block. *)
Definition emitFailure (lines : list string) (s : LoopState) : LoopState :=
  let i1 := skipFiller (length lines) lines (S (i s)) in
  let nextLine := lineAt lines i1 in
  let title := JS.orElse nextLine "unknown-property" in
  let i2 := skipFiller (length lines) lines (S i1) in
  let codeLine := lineAt lines i2 in
  let failingCode := JS.orElse codeLine "unknown-failing-code" in
  {| i := S i2;
     inCounterexampleBlock := false;
     currentFnName := currentFnName s;
     currentLineNumber := currentLineNumber s;
     results := results s ++
       [ {| functionName := orDefault (currentFnName s) "unknown_function";
            lineNumber := orDefault (currentLineNumber s) (-1)%Z;
            title := title;
            failingCode := failingCode |} ] |}.

Definition advance (s : LoopState) : LoopState :=
  {| i := S (i s);
     inCounterexampleBlock := inCounterexampleBlock s;
     currentFnName := currentFnName s;
     currentLineNumber := currentLineNumber s;
     results := results s |}.

(** One iteration of the [for] loop, with its final [i++]. *)
Definition body (lines : list string) (s : LoopState) : LoopState :=
  let line := lineAt lines (i s) in
  if String.eqb line counterexampleMarker then
    {| i := S (i s);
       inCounterexampleBlock := true;
       currentFnName := currentFnName s;
       currentLineNumber := currentLineNumber s;
       results := results s |}
  else if inCounterexampleBlock s then
    match exec stateLineRegex line with
    | Some m =>
        {| i := S (i s);
           inCounterexampleBlock := true;
           currentFnName := Some (group m 2);
           currentLineNumber := Some (JS.parseInt (group m 1));
           results := results s |}
    | None =>
        if JS.startsWith violatedProperty line
        then emitFailure lines s
        else advance s
    end
  else advance s.

(** [for (let i = 0; i < lines.length; i++) body]: the state after at
    most [n] iterations. *)
Fixpoint loop (n : nat) (lines : list string) (s : LoopState) : LoopState :=
  match n with
  | O => s
  | S n' => if i s <? length lines then loop n' lines (body lines s) else s
  end.

(** Every iteration adds at least one to [i]: [length lines] iterations
    always reach the end of the loop (lemma [loop_exits]). *)
Definition parseFailingFunctions (clarOutput : string)
  : list FailureDetails :=
  let lines := JS.split JS.LF clarOutput in
  results (loop (length lines) lines initialLoopState).

Definition parseESBMCOutput (output clarityFile functionName : string)
  : ESBMCResult :=
  if JS.includes "VERIFICATION SUCCESSFUL" output then
    {| verified := true; failures := []; rawOutput := output;
       clarityFile := clarityFile; resultFunctionName := functionName |}
  else if JS.includes "VERIFICATION FAILED" output then
    {| verified := false; failures := parseFailingFunctions output;
       rawOutput := output;
       clarityFile := clarityFile; resultFunctionName := functionName |}
  else
    {| verified := false;
       failures :=
         [ {| functionName := functionName;
              lineNumber := (-1)%Z;
              title := "unknown-result";
              failingCode :=
                "ESBMC did not produce a clear verification result" |} ];
       rawOutput := output;
       clarityFile := clarityFile; resultFunctionName := functionName |}.

End Runner.

(* ================================================================= *)
(** ** sarif/generator.ts: findings *)

Module Sarif.

Import Runner.

(** A rule identifier is a string of the table, or, when the title is
    the name of a property every JavaScript object inherits (such as
    [constructor]), the inherited value, which is truthy and is returned
    as it is. *)
Inductive RuleId : Type :=
| Rule (id : string)
| Inherited (property : string).

Definition titleMap : list (string * string) :=
  [ ("assertion", "clarity-verify-assertion");
    ("arithmetic overflow", "clarity-verify-overflow");
    ("arithmetic underflow", "clarity-verify-underflow");
    ("division by zero", "clarity-verify-division-by-zero");
    ("execution-error", "clarity-verify-execution-error") ].

Definition objectPrototype : list string :=
  [ "constructor"; "__proto__"; "hasOwnProperty"; "isPrototypeOf";
    "propertyIsEnumerable"; "toLocaleString"; "toString"; "valueOf";
    "__defineGetter__"; "__defineSetter__";
    "__lookupGetter__"; "__lookupSetter__" ].

Fixpoint lookup (k : string) (l : list (string * string)) : option string :=
  match l with
  | [] => None
  | (k', v) :: l' => if String.eqb k k' then Some v else lookup k l'
  end.

Definition mapTitleToRuleId (title : string) : RuleId :=
  match lookup title titleMap with
  | Some id => Rule id
  | None =>
      if existsb (String.eqb title) objectPrototype
      then Inherited title
      else Rule "clarity-verify-unknown-error"
  end.

(** The nested object of the source, flattened: [messageText] is
    [message.text]; [uri], [startLine] and [startColumn] belong to the
    one entry of [locations]. *)
Record SARIFResult : Type := {
  ruleId : RuleId;
  messageText : string;
  uri : string;
  startLine : Z;
  startColumn : Z
}.

Definition toSARIFResult (result : ESBMCResult) (failure : FailureDetails)
  : SARIFResult :=
  {| ruleId := mapTitleToRuleId (title failure);
     messageText :=
       String.append "Verification failed in function '"
         (String.append (functionName failure)
            (String.append "': " (failingCode failure)));
     uri := clarityFile result;
     startLine := if (lineNumber failure >? 0)%Z
                  then lineNumber failure else 1%Z;
     startColumn := 1%Z |}.

Definition convertToSARIFResults (esbmcResults : list ESBMCResult)
  : list SARIFResult :=
  flat_map
    (fun result =>
       if negb (verified result)
       then map (toSARIFResult result) (failures result)
       else [])
    esbmcResults.

End Sarif.

(* ================================================================= *)
(** ** Vocabulary of the statements *)

Module Spec.

Import Parser Runner.

(** [h] is the first function of [l] called [n]. *)
Definition firstNamed (n : string) (l : list ClarityFunction)
           (h : ClarityFunction) : Prop :=
  exists l1 l2,
    l = l1 ++ h :: l2 /\ name h = n /\ forall x, In x l1 -> name x <> n.

(** No function of [l] is called [n]. *)
Definition noneNamed (n : string) (l : list ClarityFunction) : Prop :=
  forall x, In x l -> name x <> n.

(** Number of occurrences of a character. *)
Fixpoint occurrences (c : ascii) (s : string) : nat :=
  match s with
  | EmptyString => 0
  | String a s' => (if Ascii.eqb a c then 1 else 0) + occurrences c s'
  end.

(** Opening minus closing parentheses of a text. *)
Definition balance (s : string) : Z :=
  (Z.of_nat (occurrences "("%char s) - Z.of_nat (occurrences ")"%char s))%Z.

Definition balanceOfLines (l : list string) : Z :=
  fold_right (fun s acc => (balance s + acc)%Z) 0%Z l.

(** The text that lines add to an open function: each line after a
    line feed. *)
Fixpoint tailText (rest : list string) : string :=
  match rest with
  | [] => EmptyString
  | x :: rest' =>
      String.append (String JS.LF EmptyString)
                    (String.append x (tailText rest'))
  end.

(** The state of the loop of [parseFailingFunctions] after [k]
    iterations over [lines]. *)
Definition stateAfter (lines : list string) (k : nat) : LoopState :=
  loop k lines initialLoopState.

(** Iteration [k] takes place: the loop has not reached the end. *)
Definition running (lines : list string) (k : nat) : Prop :=
  i (stateAfter lines k) < length lines.

(** The trimmed line iteration [k] reads. *)
Definition lineRead (lines : list string) (k : nat) : string :=
  lineAt lines (i (stateAfter lines k)).

(** Iteration [k] reads a [[Counterexample]] marker line. *)
Definition readsMarker (lines : list string) (k : nat) : Prop :=
  running lines k /\ lineRead lines k = counterexampleMarker.

(** Iteration [k] reads a [Violated property:] trigger: the block is
    open and the line is not taken as a State annotation. *)
Definition readsTrigger (lines : list string) (k : nat) : Prop :=
  running lines k /\
  inCounterexampleBlock (stateAfter lines k) = true /\
  RegExp.exec stateLineRegex (lineRead lines k) = None /\
  JS.startsWith violatedProperty (lineRead lines k) = true.

(** The annotation iteration [k] takes from a State line, if it reads
    one while a block is open. *)
Definition annotationRead (lines : list string) (k : nat)
  : option (Z * string) :=
  let s := stateAfter lines k in
  let line := lineAt lines (i s) in
  if (i s <? length lines)
     && negb (String.eqb line counterexampleMarker)
     && inCounterexampleBlock s
  then match RegExp.exec stateLineRegex line with
       | Some m => Some (JS.parseInt (RegExp.group m 1), RegExp.group m 2)
       | None => None
       end
  else None.

(** Iteration [k] pushes the record [r]. *)
Definition emittedAt (lines : list string) (k : nat) (r : FailureDetails)
  : Prop :=
  results (stateAfter lines (S k)) = results (stateAfter lines k) ++ [r].

(** Number of [[Counterexample]] marker lines. *)
Definition markerCount (lines : list string) : nat :=
  length (filter (fun l => String.eqb (JS.trim l) counterexampleMarker)
                 lines).

End Spec.

(* ================================================================= *)
(** ** Concrete inputs *)

Module Samples.

Import Parser Runner.

(** The counterexample block of the sample contract. *)
Definition sampleCounterexample : string :=
  "[Counterexample]
State 3 file sample.clar line 17 function deposit thread 0
Violated property:

assertion

try! (stx-transfer? amount tx-sender (as-contract tx-sender))".

(** Two counterexample blocks; only the first has a State line. *)
Definition twoBlocks : string :=
  "[Counterexample]
State 1 file a.clar line 5 function f thread 0
Violated property:
  assertion
  (asserts! (> x u0))
[Counterexample]
Violated property:
  assertion
  (asserts! (> y u0))".

(** A trigger with nothing after it but blank lines. *)
Definition blankTail : string :=
  "[Counterexample]
Violated property:
   
".

(** A complete function, then one whose parentheses never balance. *)
Definition unbalanced : string :=
  "(define-read-only (g) (ok u0))
(define-public (f)
  (ok true".

(** The match of the header of [f] in [unbalanced]. *)
Definition headerMatch : RegExp.MatchResult :=
  {| RegExp.index := 0;
     RegExp.subject := "(define-public (f)";
     RegExp.groups := [(2, (16, 17)); (1, (8, 14))] |}.

(** The sample contract (comments left out), before and after a change
    to the [try!] line of [deposit]. *)
Definition contractBase : string :=
  "(define-map deposits { owner: principal } { amount: uint })
(define-data-var total-deposits uint u0)

(define-public (deposit (amount uint))
   (let (
   (current-balance (default-to u0 (get amount (map-get? deposits { owner: tx-sender })))))
   (try! (stx-transfer? amount tx-sender (as-contract tx-sender)))
   (map-set deposits { owner: tx-sender } { amount: (+ current-balance amount) })
   (var-set total-deposits (+ (var-get total-deposits) amount))
   (ok true)
   )
)

(define-read-only (get-balance)
   (ok (var-get total-deposits))
)".

Definition contractHead : string :=
  "(define-map deposits { owner: principal } { amount: uint })
(define-data-var total-deposits uint u0)

(define-public (deposit (amount uint))
   (let (
   (current-balance (default-to u0 (get amount (map-get? deposits { owner: tx-sender })))))
   (try! (stx-transfer? amount tx-sender (as-contract tx-sender))) ;; Modified line
   (map-set deposits { owner: tx-sender } { amount: (+ current-balance amount) })
   (var-set total-deposits (+ (var-get total-deposits) amount))
   (ok true)
   )
)

(define-read-only (get-balance)
   (ok (var-get total-deposits))
)".

(** A fetcher for a file that only exists at the head revision. *)
Definition newFileFetcher (gitRef filePath : string) : string :=
  if String.eqb gitRef "head" then "(define-public (f) (ok u1))"
  else EmptyString.

(** Two functions of one name, with different bodies. *)
Definition dup_a : ClarityFunction :=
  {| name := "f"; type := "public"; startLine := 1; endLine := 1;
     content := "(define-public (f) (ok u1))"; file := "c.clar" |}.
Definition dup_b : ClarityFunction :=
  {| name := "f"; type := "public"; startLine := 2; endLine := 2;
     content := "(define-public (f) (ok u2))"; file := "c.clar" |}.

(** The sample block with indentation and carriage returns. *)
Definition sampleCounterexampleCRLF : string :=
  String.append "  [Counterexample]"
 (String.append (String (ascii_of_nat 13) (String JS.LF EmptyString))
 (String.append
    "State 3 file sample.clar line 17 function deposit thread 0"
 (String.append (String (ascii_of_nat 13) (String JS.LF EmptyString))
 (String.append "Violated property:   "
 (String.append (String (ascii_of_nat 13) (String JS.LF EmptyString))
 (String.append (String (ascii_of_nat 13) (String JS.LF EmptyString))
 (String.append "    assertion"
 (String.append (String (ascii_of_nat 13) (String JS.LF EmptyString))
 (String.append (String (ascii_of_nat 13) (String JS.LF EmptyString))
 "    try! (stx-transfer? amount tx-sender (as-contract tx-sender))"
 ))))))))).

(** A function of another name. *)
Definition sampleG : ClarityFunction :=
  {| name := "g"; type := "read-only"; startLine := 3; endLine := 3;
     content := "(define-read-only (g) (ok u0))"; file := "c.clar" |}.

End Samples.

(* ================================================================= *)
(** ** More of the string primitives *)

Module JSMore.

(** [s.split(re)] for a pattern that is one character class, such as
    [/[\n,]/]: the text is cut at every character of the class. *)
Fixpoint splitOn (isSep : ascii -> bool) (s : string) : list string :=
  match s with
  | EmptyString => [EmptyString]
  | String c s' =>
      if isSep c then EmptyString :: splitOn isSep s'
      else match splitOn isSep s' with
           | [] => [String c EmptyString]
           | h :: t => String c h :: t
           end
  end.

(** [s.endsWith(p)] *)
Definition endsWith (p s : string) : bool :=
  (String.length p <=? String.length s)
  && String.eqb (JS.slice (String.length s - String.length p) s) p.

(** [a.join(sep)] *)
Definition join (sep : string) (a : list string) : string :=
  String.concat sep a.



End JSMore.

(* ================================================================= *)
(** ** utils: list inputs *)

Module UtilsInput.

(** The class [[\n,]]. *)
Definition isListSeparator (c : ascii) : bool :=
  Ascii.eqb c JS.LF || Ascii.eqb c ","%char.

Definition parseListInput (value : string) : list string :=
  if JS.isFalsy value then []
  else
    filter (fun s => negb (String.eqb s EmptyString))
           (map JS.trim (JSMore.splitOn isListSeparator value)).

End UtilsInput.

(* ================================================================= *)
(** ** git/parser.ts: the files of a diff *)

Module Files.

Section Paths.

(** [path.relative] and [path.isAbsolute] belong to the platform. *)
Variable relative : string -> string -> string.
Variable isAbsolute : string -> bool.

(** The test of the second [filter] of [getModifiedFiles]. *)
Definition inContractsDir (contractsDir : list string) (file : string)
  : bool :=
  existsb
    (fun dir =>
       let relativePath := relative dir file in
       negb (JS.startsWith ".." relativePath)
       && negb (isAbsolute relativePath))
    contractsDir.

(** The value [files] of [getModifiedFiles], from the text [output]
    that [git diff --name-only] has printed. *)
Definition modifiedContractFiles (output : string)
           (contractsDir : list string) : list string :=
  filter (inContractsDir contractsDir)
         (filter (JSMore.endsWith ".clar")
                 (map JS.trim (JS.split JS.LF output))).

End Paths.

End Files.

(* ================================================================= *)
(** ** esbmc/runner.ts: running the checker *)

Module Jobs.

Import Runner.

Section Container.

(** [runInContainer] starts a container: its result is the text the
    command printed, or the text of the error it threw. *)
Variable runInContainer : string -> string -> string -> string + string.

(** [getContractName] comes from the AST generator. *)
Variable getContractName : string -> string.

Definition esbmcCmd (clarityFile astFile functionName esbmcFlags : string)
  : string :=
  JSMore.join " "
    [ String.append "--clar "
        (String.append clarityFile (String.append " " astFile));
      String.append "--clar_contract " (getContractName clarityFile);
      "--force-malloc-success --k-induction --max-k-step 6 --unwind 200";
      "--no-bounds-check --array-flattener --no-unlimited-scanf-check";
      String.append
        "--no-unwinding-assertions --multi-property --function "
        functionName;
      esbmcFlags ].

Definition runESBMC
           (clarityFile astFile functionName esbmcFlags
            containerRepo containerVersion : string) : ESBMCResult :=
  match runInContainer containerRepo containerVersion
          (esbmcCmd clarityFile astFile functionName esbmcFlags) with
  | inl output => parseESBMCOutput output clarityFile functionName
  | inr error =>
      {| verified := false;
         failures :=
           [ {| functionName := functionName;
                lineNumber := (-1)%Z;
                title := "execution-error";
                failingCode :=
                  String.append "ESBMC execution failed: " error |} ];
         rawOutput := String.append "Error: " error;
         clarityFile := clarityFile;
         resultFunctionName := functionName |}
  end.

(** [changedFunctions] is a [Map] from files to function names, read in
    insertion order; [astMap.get] is a function.  [runESBMC] catches
    every error itself, so the [catch] around its call is never
    entered. *)
Definition runESBMCOnFunctions
           (changedFunctions : list (string * list string))
           (astMap : string -> option string)
           (esbmcFlags containerRepo containerVersion : string)
  : list ESBMCResult :=
  flat_map
    (fun entry : string * list string =>
       let (clarityFile, functions) := entry in
       match astMap clarityFile with
       | None => []
       | Some astFile =>
           if JS.isFalsy astFile then []
           else
             map (fun functionName =>
                    runESBMC clarityFile astFile functionName esbmcFlags
                             containerRepo containerVersion)
                 functions
       end)
    changedFunctions.

End Container.

End Jobs.

(* ================================================================= *)
(** ** index.ts: grouping, configuration and the status of a run *)

Module Index.

Import Parser Runner.

(** A [Map<string, string[]>], its entries in insertion order. *)
Definition FunctionsByFile : Type := list (string * list string).

Fixpoint mapHas (k : string) (m : FunctionsByFile) : bool :=
  match m with
  | [] => false
  | (k', _) :: m' => String.eqb k k' || mapHas k m'
  end.

Fixpoint mapGet (k : string) (m : FunctionsByFile) : option (list string) :=
  match m with
  | [] => None
  | (k', v) :: m' => if String.eqb k k' then Some v else mapGet k m'
  end.

(** [m.set(k, v)]: a new key goes to the end, a known key keeps its
    place. *)
Fixpoint mapSet (k : string) (v : list string) (m : FunctionsByFile)
  : FunctionsByFile :=
  match m with
  | [] => [(k, v)]
  | (k', v') :: m' =>
      if String.eqb k k' then (k', v) :: m' else (k', v') :: mapSet k v m'
  end.

(** [m.get(k)!.push(x)]: the array stored under [k] grows in place. *)
Fixpoint mapPush (k x : string) (m : FunctionsByFile) : FunctionsByFile :=
  match m with
  | [] => []
  | (k', v) :: m' =>
      if String.eqb k k' then (k', v ++ [x]) :: m'
      else (k', v) :: mapPush k x m'
  end.

Definition groupFunctionsByFile (changedFunctions : list ChangedFunction)
  : FunctionsByFile :=
  fold_left
    (fun functionsByFile (func : ChangedFunction) =>
       let withKey :=
         if negb (mapHas (file func) functionsByFile)
         then mapSet (file func) [] functionsByFile
         else functionsByFile in
       mapPush (file func) (name func) withKey)
    changedFunctions [].

Record ActionConfig : Type := {
  contractsDir : list string;
  esbmcFlags : string;
  excludedContracts : list string;
  failOnIssue : bool;
  baseRef : string;
  headRef : string;
  containerVersion : string;
  astContainerRepo : string;
  esbmcContainerRepo : string
}.

Section Inputs.

(** [core.getInput] gives the text of an input, empty when it is not
    set; [pullRequest] holds [base.ref] and [head.ref] of the pull
    request of the context, when there is one. *)
Variable getInput : string -> string.
Variable pullRequest : option (string * string).

Definition getActionConfig : ActionConfig :=
  let baseRef0 := getInput "base_ref" in
  let headRef0 := getInput "head_ref" in
  let baseRef1 :=
    match pullRequest with
    | Some (base, _) => if JS.isFalsy baseRef0 then base else baseRef0
    | None => baseRef0
    end in
  let headRef1 :=
    match pullRequest with
    | Some (_, head) => if JS.isFalsy headRef0 then head else headRef0
    | None => headRef0
    end in
  {| contractsDir :=
       UtilsInput.parseListInput (JS.orElse (getInput "contracts_dir") "./");
     esbmcFlags := JS.orElse (getInput "esbmc_flags") "--verbose";
     excludedContracts :=
       UtilsInput.parseListInput
         (JS.orElse (getInput "excluded_contracts") EmptyString);
     failOnIssue := negb (String.eqb (getInput "fail_on_issue") "false");
     baseRef := JS.orElse baseRef1 "main";
     headRef := JS.orElse headRef1 "HEAD";
     containerVersion := JS.orElse (getInput "container_version") "v1.0.0";
     astContainerRepo :=
       JS.orElse (getInput "ast_container_repo")
                 "ghcr.io/companyx/clarity-ast-generator";
     esbmcContainerRepo :=
       JS.orElse (getInput "esbmc_container_repo")
                 "ghcr.io/companyx/clarity-esbmc" |}.

End Inputs.

Section Run.

Variable runInContainer : string -> string -> string -> string + string.
Variable getContractName : string -> string.

(** [generateASTs] runs the AST generator; [generateASTs files repo
    version] is the [get] of the [Map] it returns. *)
Variable generateASTs :
  list string -> string -> string -> string -> option string.



End Run.

End Index.

(* ================================================================= *)
(** ** github/comment.ts: the status of the workflow *)

Module Comment.

Import Runner.



End Comment.

(* ================================================================= *)
(** ** sarif/generator.ts: the report *)

Module Report.

Import Runner Sarif.

Record SARIFRule : Type := {
  id : string;
  shortDescription : string;
  helpText : option string
}.

Definition defineRules : list SARIFRule :=
  [ {| id := "clarity-verify-assertion";
       shortDescription := "Assertion failure in Clarity contract";
       helpText := Some
         "An assertion in the Clarity contract failed during formal verification." |};
    {| id := "clarity-verify-overflow";
       shortDescription := "Arithmetic overflow in Clarity contract";
       helpText := Some
         "An arithmetic operation in the Clarity contract may cause an overflow." |};
    {| id := "clarity-verify-underflow";
       shortDescription := "Arithmetic underflow in Clarity contract";
       helpText := Some
         "An arithmetic operation in the Clarity contract may cause an underflow." |};
    {| id := "clarity-verify-division-by-zero";
       shortDescription := "Division by zero in Clarity contract";
       helpText := Some
         "A division operation in the Clarity contract may cause a division by zero." |};
    {| id := "clarity-verify-execution-error";
       shortDescription := "Execution error in Clarity contract";
       helpText := Some
         "An error occurred during the execution of the Clarity contract." |};
    {| id := "clarity-verify-unknown-error";
       shortDescription := "Unknown error in Clarity contract";
       helpText := Some
         "An unknown error occurred during the verification of the Clarity contract." |} ].

(** The report has one run; its fields are flattened. *)
Record SARIFReport : Type := {
  version : string;
  schema : string;
  driverName : string;
  driverVersion : string;
  rules : list SARIFRule;
  runResults : list SARIFResult
}.

Definition generateSARIF (esbmcResults : list ESBMCResult) : SARIFReport :=
  {| version := "2.1.0";
     schema :=
       "https://raw.githubusercontent.com/oasis-tcs/sarif-spec/master/Schemata/sarif-schema-2.1.0.json";
     driverName := "ESBMC Clarity Formal Verification";
     driverVersion := "1.0.0";
     rules := defineRules;
     runResults := convertToSARIFResults esbmcResults |}.

End Report.

(* ================================================================= *)
(** ** sarif/generator.ts: the summary *)

Module Summary.

Import Runner.


Section Platform.

(** [path.basename] belongs to the platform. *)
Variable basename : string -> string.

(** The emoji that ends the line written when nothing failed: its code
    units lie outside the characters of [string]. *)
Variable partyPopper : string.




End Platform.

End Summary.

(* ================================================================= *)
(** ** Vocabulary of the further statements *)

Module Spec2.

Import Parser Runner.


(** A list entry as [parseListInput] returns them: not empty, without
    whitespace around it, without comma or line feed inside. *)
Definition cleanEntry (x : string) : Prop :=
  x <> EmptyString /\ JS.trim x = x /\
  Spec.occurrences ","%char x = 0 /\ Spec.occurrences JS.LF x = 0.

(** The lines [a] to [b] of a text, counted from 1, both included. *)
Definition linesBetween (lines : list string) (a b : nat) : list string :=
  firstn (b - a + 1) (skipn (a - 1) lines).

(** [f] ends before [g] begins. *)
Definition before (f g : ClarityFunction) : Prop :=
  endLine f < Parser.startLine g.

(** The names of the changed functions of one file, in order. *)
Definition namesOfFile (f : string) (changed : list ChangedFunction)
  : list string :=
  map (fun c : ChangedFunction => name c)
      (filter (fun c : ChangedFunction => String.eqb (file c) f) changed).

(** The span of a parsed function lies inside the text, and its raw
    content is the text of its lines. *)
Definition wellFormed (filePath : string) (lines : list string)
           (f : ClarityFunction) : Prop :=
  1 <= Parser.startLine f /\ Parser.startLine f <= endLine f /\
  endLine f <= length lines /\
  file f = filePath /\
  content f
  = JSMore.join (String JS.LF EmptyString)
                (linesBetween lines (Parser.startLine f) (endLine f)).

(** A function moved to the top of a text of its own: it starts at
    line 1 and keeps its number of lines. *)
Definition rebased (f : ClarityFunction) : ClarityFunction :=
  {| name := name f; type := type f;
     startLine := 1;
     endLine := endLine f - Parser.startLine f + 1;
     content := content f; file := file f |}.

End Spec2.

(* ================================================================= *)
(** ** Properties of the string primitives *)

Module JSFacts.

Import JS.

Lemma prefix_append (p s : string) : String.prefix p (String.append p s) = true.
Proof.
  induction p as [|a p IH]; simpl.
  - destruct s; reflexivity.
  - destruct (ascii_dec a a) as [_|N]; [exact IH | now elim N].
Qed.

Lemma prefix_inv (p s : string) :
  String.prefix p s = true -> exists t, s = String.append p t.
Proof.
  revert s; induction p as [|a p IH]; intros s H.
  - exists s; reflexivity.
  - destruct s as [|b s]; simpl in H; [discriminate|].
    destruct (ascii_dec a b) as [->|_]; [|discriminate].
    destruct (IH _ H) as [t ->]. exists t; reflexivity.
Qed.

Lemma includes_prefix (p s : string) :
  String.prefix p s = true -> includes p s = true.
Proof.
  intros H; destruct s as [|c s].
  - destruct p; [reflexivity | discriminate H].
  - cbn [includes]. rewrite H; reflexivity.
Qed.

(** [includes] finds every occurrence: a text that has [p] somewhere
    inside includes [p]. *)
Lemma includes_append (p pre post : string) :
  includes p (String.append pre (String.append p post)) = true.
Proof.
  induction pre as [|c pre IH]; simpl.
  - apply includes_prefix, prefix_append.
  - rewrite IH. apply orb_true_r.
Qed.

Lemma includes_inv (p s : string) :
  includes p s = true ->
  exists pre post, s = String.append pre (String.append p post).
Proof.
  induction s as [|c s IH]; cbn [includes]; intros H.
  - rewrite orb_false_r in H. destruct (prefix_inv _ _ H) as [t E].
    exists EmptyString, t; exact E.
  - apply orb_true_iff in H as [H|H].
    + destruct (prefix_inv _ _ H) as [t ->].
      exists EmptyString, t; reflexivity.
    + destruct (IH H) as (pre & post & ->).
      exists (String c pre), post; reflexivity.
Qed.

Lemma trimEnd_idempotent (s : string) : trimEnd (trimEnd s) = trimEnd s.
Proof.
  induction s as [|c s IH]; simpl; [reflexivity|].
  destruct (trimEnd s) as [|d t] eqn:E.
  - destruct (isWhiteSpace c) eqn:W; simpl; [reflexivity|].
    rewrite W; reflexivity.
  - change (trimEnd (String c (String d t)))
      with (match trimEnd (String d t) with
            | EmptyString => if isWhiteSpace c then EmptyString
                             else String c EmptyString
            | u => String c u
            end).
    rewrite IH. reflexivity.
Qed.

(** The result of [trimEnd] starts like its argument. *)
Lemma trimEnd_head (c : ascii) (s : string) :
  isWhiteSpace c = false ->
  exists t, trimEnd (String c s) = String c t.
Proof.
  intros W. simpl. destruct (trimEnd s); rewrite ?W; eauto.
Qed.

Lemma trimStart_head (s : string) :
  trimStart s = EmptyString \/
  exists c t, trimStart s = String c t /\ isWhiteSpace c = false.
Proof.
  induction s as [|c s IH]; simpl; [left; reflexivity|].
  destruct (isWhiteSpace c) eqn:W; [exact IH|]. right; eauto.
Qed.

Lemma trimStart_fixed (c : ascii) (s : string) :
  isWhiteSpace c = false -> trimStart (String c s) = String c s.
Proof. intros W; simpl; rewrite W; reflexivity. Qed.

Lemma trim_idempotent (s : string) : trim (trim s) = trim s.
Proof.
  unfold trim. destruct (trimStart_head s) as [->|(c & t & -> & W)].
  - reflexivity.
  - destruct (trimEnd_head c t W) as [u E]. rewrite E.
    rewrite trimStart_fixed by exact W. rewrite <- E.
    apply trimEnd_idempotent.
Qed.

(** After a prefix that ends on a visible character, [trimEnd] only
    touches what follows. *)
Lemma trimEnd_append_keep (p : string) (c : ascii) (t : string) :
  isWhiteSpace c = false ->
  exists u, trimEnd (String.append p (String c t))
            = String.append p (String c u).
Proof.
  intros W. induction p as [|x p (u & IH)].
  - apply trimEnd_head; exact W.
  - exists u. cbn [String.append trimEnd]. rewrite IH.
    destruct p; reflexivity.
Qed.

Lemma append_assoc (a b c : string) :
  String.append (String.append a b) c = String.append a (String.append b c).
Proof. induction a as [|x a IH]; simpl; [reflexivity|now rewrite IH]. Qed.

Lemma occurrences_append (c : ascii) (a b : string) :
  Spec.occurrences c (String.append a b)
  = Spec.occurrences c a + Spec.occurrences c b.
Proof. induction a as [|x a IH]; simpl; [reflexivity|]. rewrite IH. lia. Qed.

Lemma trim_empty : trim EmptyString = EmptyString.
Proof. reflexivity. Qed.

Lemma split_not_nil (sep : ascii) (s : string) : split sep s <> [].
Proof.
  destruct s as [|c s]; simpl; [discriminate|].
  destruct (Ascii.eqb c sep); [discriminate|].
  destruct (split sep s); discriminate.
Qed.

(** Splitting at a separator splits the two sides. *)
Lemma split_append_sep (sep : ascii) (a b : string) :
  split sep (String.append a (String sep b)) = split sep a ++ split sep b.
Proof.
  induction a as [|c a IH]; simpl.
  - rewrite Ascii.eqb_refl. reflexivity.
  - destruct (Ascii.eqb c sep); [now rewrite IH|].
    rewrite IH. destruct (split sep a) eqn:E; [|reflexivity].
    elim (split_not_nil _ _ E).
Qed.

Lemma split_no_sep (sep : ascii) (s : string) :
  Spec.occurrences sep s = 0 -> split sep s = [s].
Proof.
  induction s as [|c s IH]; simpl; [reflexivity|].
  destruct (Ascii.eqb c sep); [discriminate|]. simpl.
  intros H. rewrite (IH H). reflexivity.
Qed.

End JSFacts.

(* ================================================================= *)
(** ** The model at work on small inputs *)

Module Checks.

Import Parser Runner Sarif Samples.

Example trim_both_sides :
  JS.trim (String (ascii_of_nat 9) "  a b  ") = "a b".
Proof. reflexivity. Qed.

Example split_keeps_empty_pieces :
  JS.split "," "a,,b," = ["a"; EmptyString; "b"; EmptyString]
  /\ JS.split "," EmptyString = [EmptyString].
Proof. split; reflexivity. Qed.

Example parseInt_leading_zero : JS.parseInt "017" = 17%Z.
Proof. reflexivity. Qed.

(** The lazy [.+?] stops at the first [line <digits>] that lets the
    rest of the pattern match. *)
Example state_line_groups :
  option_map (fun m => (RegExp.index m, RegExp.group m 1, RegExp.group m 2))
    (RegExp.exec stateLineRegex
       "  State 3 file my file.clar line 17 function deposit thread 0")
  = Some (2, "17", "deposit").
Proof. vm_compute. reflexivity. Qed.

Example state_line_needs_thread :
  RegExp.exec stateLineRegex
    "State 3 file sample.clar line 17 function deposit" = None.
Proof. vm_compute. reflexivity. Qed.

Example header_groups :
  option_map (fun m => (RegExp.index m, RegExp.group m 1, RegExp.group m 2))
    (RegExp.exec functionRegex "  (define-read-only   (get-balance)")
  = Some (2, "read-only", "get-balance").
Proof. vm_compute. reflexivity. Qed.

Example header_other_keyword :
  RegExp.exec functionRegex "(define-map deposits { owner: principal })"
  = None.
Proof. vm_compute. reflexivity. Qed.

Example contract_functions :
  map (fun f => (name f, type f, Parser.startLine f, endLine f))
      (parseClarityFunctions contractHead "sample.clar")
  = [ ("deposit", "public", 4, 12); ("get-balance", "read-only", 14, 16) ].
Proof. vm_compute. reflexivity. Qed.

(** Only the [try!] line of [deposit] differs: one record, for
    [deposit], marked modified; nothing for [get-balance]. *)
Example contract_changes :
  map (fun c : ChangedFunction => (name c, changeType c))
      (compareAndIdentifyChanges
         (parseClarityFunctions contractBase "sample.clar")
         (parseClarityFunctions contractHead "sample.clar"))
  = [ ("deposit", modified) ].
Proof. vm_compute. reflexivity. Qed.

Example title_table :
  mapTitleToRuleId "assertion" = Rule "clarity-verify-assertion"
  /\ mapTitleToRuleId "heap-corruption" = Rule "clarity-verify-unknown-error"
  /\ mapTitleToRuleId "constructor" = Inherited "constructor".
Proof. repeat split; reflexivity. Qed.

Example failed_output_classified :
  let r := parseESBMCOutput
             (String.append twoBlocks
                            (String JS.LF "VERIFICATION FAILED"))
             "a.clar" "f" in
  verified r = false /\ length (failures r) = 2.
Proof. vm_compute. split; reflexivity. Qed.

Example unclear_output_classified :
  failures (parseESBMCOutput "Segmentation fault" "a.clar" "f")
  = [ {| functionName := "f"; lineNumber := (-1)%Z;
         title := "unknown-result";
         failingCode :=
           "ESBMC did not produce a clear verification result" |} ].
Proof. vm_compute. reflexivity. Qed.

End Checks.

(* ================================================================= *)
(** ** The change comparator *)

Module ParserFacts.

Import Parser Spec Samples.

Lemma findByName_Some (n : string) (l : list ClarityFunction)
      (h : ClarityFunction) :
  findByName n l = Some h <-> firstNamed n l h.
Proof.
  unfold findByName, firstNamed. induction l as [|x l IH]; simpl.
  - split; [discriminate|]. intros (l1 & l2 & E & _).
    destruct l1; discriminate E.
  - destruct (String.eqb (name x) n) eqn:Ex.
    + apply String.eqb_eq in Ex. split.
      * intros [= <-]. exists [], l. repeat split; auto.
      * intros (l1 & l2 & E & Hn & Hl1). destruct l1 as [|y l1].
        -- now injection E as -> _.
        -- injection E as <- _. exfalso. apply (Hl1 x); simpl; auto.
    + apply String.eqb_neq in Ex. rewrite IH. split.
      * intros (l1 & l2 & -> & Hn & Hl1). exists (x :: l1), l2.
        repeat split; auto. intros y [<-|Hy]; auto.
      * intros (l1 & l2 & E & Hn & Hl1). destruct l1 as [|y l1].
        -- injection E as -> _. contradiction.
        -- injection E as <- ->. exists l1, l2. repeat split; auto.
           intros z Hz. apply Hl1. simpl; auto.
Qed.

Lemma findByName_None (n : string) (l : list ClarityFunction) :
  findByName n l = None <-> noneNamed n l.
Proof.
  unfold findByName, noneNamed. induction l as [|x l IH]; simpl.
  - split; [intros _ ? []|reflexivity].
  - destruct (String.eqb (name x) n) eqn:Ex.
    + apply String.eqb_eq in Ex. split; [discriminate|].
      intros H. exfalso. apply (H x); auto.
    + apply String.eqb_neq in Ex. rewrite IH. split.
      * intros H y [<-|Hy]; auto.
      * intros H y Hy. apply H; auto.
Qed.

Lemma firstNamed_In (n : string) (l : list ClarityFunction)
      (h : ClarityFunction) :
  firstNamed n l h -> In h l /\ name h = n.
Proof.
  intros (l1 & l2 & -> & Hn & _). split; auto.
  apply in_or_app; right; left; reflexivity.
Qed.

Lemma firstNamed_functional (n : string) (l : list ClarityFunction)
      (h h' : ClarityFunction) :
  firstNamed n l h -> firstNamed n l h' -> h = h'.
Proof.
  intros H H'. apply findByName_Some in H, H'. congruence.
Qed.

(** The records the first loop pushes for one base function. *)
Lemma in_base_pass (baseFunc : ClarityFunction)
      (headFunctions : list ClarityFunction) (c : ChangedFunction) :
  In c (match findByName (name baseFunc) headFunctions with
        | None => [ {| func := baseFunc; changeType := deleted |} ]
        | Some headFunc =>
            if negb (String.eqb (content baseFunc) (content headFunc))
            then [ {| func := headFunc; changeType := modified |} ]
            else []
        end) <->
  (changeType c = deleted /\ func c = baseFunc /\
   noneNamed (name baseFunc) headFunctions) \/
  (changeType c = modified /\
   firstNamed (name baseFunc) headFunctions (func c) /\
   content baseFunc <> content (func c)).
Proof.
  destruct (findByName (name baseFunc) headFunctions) as [h|] eqn:F.
  - apply findByName_Some in F.
    destruct (String.eqb (content baseFunc) (content h)) eqn:Ec; simpl.
    + apply String.eqb_eq in Ec. split; [intros []|].
      intros [(_ & _ & N)|(_ & F' & D)].
      * destruct (firstNamed_In _ _ _ F) as [Hin Hn]. elim (N h Hin Hn).
      * rewrite (firstNamed_functional _ _ _ _ F F') in Ec. contradiction.
    + apply String.eqb_neq in Ec. split.
      * intros [<-|[]]. right. simpl. auto.
      * intros [(_ & _ & N)|(T & F' & D)].
        -- destruct (firstNamed_In _ _ _ F) as [Hin Hn]. elim (N h Hin Hn).
        -- left. destruct c as [f t]; simpl in *. subst t.
           now rewrite (firstNamed_functional _ _ _ _ F F').
  - apply findByName_None in F. simpl. split.
    + intros [<-|[]]. left; simpl; auto.
    + intros [(T & E & _)|(_ & F' & _)].
      * left. destruct c as [f t]; simpl in *. now subst.
      * destruct (firstNamed_In _ _ _ F') as [Hin Hn]. elim (F _ Hin Hn).
Qed.

(** The records the second loop pushes for one head function. *)
Lemma in_head_pass (headFunc : ClarityFunction)
      (baseFunctions : list ClarityFunction) (c : ChangedFunction) :
  In c (match findByName (name headFunc) baseFunctions with
        | None => [ {| func := headFunc; changeType := added |} ]
        | Some _ => []
        end) <->
  changeType c = added /\ func c = headFunc /\
  noneNamed (name headFunc) baseFunctions.
Proof.
  destruct (findByName (name headFunc) baseFunctions) as [b|] eqn:F.
  - apply findByName_Some, firstNamed_In in F as [Hin Hn]. split; [intros []|].
    intros (_ & _ & N). elim (N b Hin Hn).
  - apply findByName_None in F. simpl. split.
    + intros [<-|[]]. simpl; auto.
    + intros (T & E & _). left. destruct c as [f t]; simpl in *. now subst.
Qed.

(** Membership in the output of the comparator. *)
Lemma in_compare (base head : list ClarityFunction) (c : ChangedFunction) :
  In c (compareAndIdentifyChanges base head) <->
  (changeType c = modified /\
   firstNamed (name c) head (func c) /\
   exists b, In b base /\ name b = name c /\ content b <> content c) \/
  (changeType c = deleted /\ In (func c) base /\ noneNamed (name c) head) \/
  (changeType c = added /\ In (func c) head /\ noneNamed (name c) base).
Proof.
  unfold compareAndIdentifyChanges.
  rewrite in_app_iff, !in_flat_map. split.
  - intros [(b & Hb & H)|(h & Hh & H)].
    + apply in_base_pass in H as [(T & E & N)|(T & F & D)].
      * right; left. rewrite E. auto.
      * left. destruct (firstNamed_In _ _ _ F) as [_ Hn].
        split; auto. split; [now rewrite Hn|]. exists b; auto.
    + apply in_head_pass in H as (T & E & N).
      right; right. rewrite E. auto.
  - intros [(T & F & b & Hb & Hn & D)|[(T & Hin & N)|(T & Hin & N)]].
    + left. exists b. split; auto. apply in_base_pass. right.
      rewrite Hn. auto.
    + left. exists (func c). split; auto. apply in_base_pass. left. auto.
    + right. exists (func c). split; auto. apply in_head_pass. auto.
Qed.

(** C1 (as amended): a name can be carried by several functions of one
    revision, and the comparator then looks at the first head function
    of that name.  The output holds a "modified" record exactly for the
    first head function of a name some base function of which has a
    different raw content (the record carries that head definition), a
    "deleted" record exactly for the base functions whose name no head
    function has (carrying the base definition), an "added" record
    exactly for the head functions whose name no base function has; and
    it holds no record for a name all of whose base functions have the
    raw content of the first head function of that name. *)
Theorem compare_classifies_by_first_match
        (base head : list ClarityFunction) :
  (forall c : ChangedFunction,
      In c (compareAndIdentifyChanges base head) <->
      (changeType c = modified /\
       firstNamed (name c) head (func c) /\
       exists b, In b base /\ name b = name c /\ content b <> content c) \/
      (changeType c = deleted /\
       In (func c) base /\ noneNamed (name c) head) \/
      (changeType c = added /\
       In (func c) head /\ noneNamed (name c) base)) /\
  (forall (n : string) (h : ClarityFunction),
      firstNamed n head h ->
      (exists b, In b base /\ name b = n) ->
      (forall b, In b base -> name b = n -> content b = content h) ->
      forall c : ChangedFunction,
        In c (compareAndIdentifyChanges base head) -> name c <> n).
Proof.
  split; [intros c; apply in_compare|].
  intros n h F (b0 & Hb0 & Hn0) Same c Hc En. subst n.
  apply in_compare in Hc as [(_ & F' & b & Hb & Hn & D)|[(_ & _ & N)|(_ & _ & N)]].
  - rewrite En in F'.
    rewrite <- (firstNamed_functional _ _ _ _ F F') in D.
    apply D, Same; auto. congruence.
  - destruct (firstNamed_In _ _ _ F) as [Hin Hn]. apply (N h Hin). congruence.
  - apply (N b0 Hb0). congruence.
Qed.

(** C1 (as stated) fails: a sequence compared with itself, so that the
    raw content of every function is identical on both sides, still
    yields a "modified" record when a name occurs twice; and a base
    function whose content differs from a head function of the same
    name yields no record when an earlier head function of that name
    has the same content. *)
Lemma compare_duplicate_names_counterexample :
  compareAndIdentifyChanges [dup_a; dup_b] [dup_a; dup_b]
  = [ {| func := dup_a; changeType := modified |} ]
  /\ compareAndIdentifyChanges [dup_a] [dup_a; dup_b] = [].
Proof. split; reflexivity. Qed.

(** When no name occurs twice in a revision, the first function of a
    name is the function of that name. *)
Lemma firstNamed_unique (l : list ClarityFunction) (h : ClarityFunction) :
  NoDup (map name l) -> In h l -> firstNamed (name h) l h.
Proof.
  intros U Hin. apply in_split in Hin as (l1 & l2 & ->).
  exists l1, l2. repeat split; auto.
  intros x Hx E. rewrite map_app in U. simpl in U.
  apply NoDup_remove_2 in U. apply U.
  apply in_or_app; left. rewrite <- E. apply in_map; exact Hx.
Qed.

Lemma unique_name (l : list ClarityFunction) (x y : ClarityFunction) :
  NoDup (map name l) -> In x l -> In y l -> name x = name y -> x = y.
Proof.
  intros U Hx Hy E.
  pose proof (firstNamed_unique l x U Hx) as Fx.
  pose proof (firstNamed_unique l y U Hy) as Fy.
  rewrite E in Fx. exact (firstNamed_functional _ _ _ _ Fx Fy).
Qed.

(** With names that occur at most once in each revision, the output is
    described by the names alone: a "modified" record for the head
    function of a name that base has with another raw content, a
    "deleted" record for a base function whose name head does not have,
    an "added" record for a head function whose name base does not
    have, and nothing for a name with the same raw content on both
    sides. *)
Lemma compare_unique_names (base head : list ClarityFunction) :
  NoDup (map name base) -> NoDup (map name head) ->
  (forall c : ChangedFunction,
      In c (compareAndIdentifyChanges base head) <->
      (changeType c = modified /\ In (func c) head /\
       exists b, In b base /\ name b = name c /\ content b <> content c) \/
      (changeType c = deleted /\
       In (func c) base /\ noneNamed (name c) head) \/
      (changeType c = added /\
       In (func c) head /\ noneNamed (name c) base)) /\
  (forall b h,
      In b base -> In h head -> name b = name h -> content b = content h ->
      forall c : ChangedFunction,
        In c (compareAndIdentifyChanges base head) -> name c <> name b).
Proof.
  intros Ub Uh. split.
  - intros c. rewrite in_compare. split.
    + intros [(T & F & H)|H]; [left|right; exact H].
      apply firstNamed_In in F as [Hin _]. auto.
    + intros [(T & Hin & H)|H]; [left|right; exact H].
      split; auto. split; auto. apply firstNamed_unique; auto.
  - intros b h Hb Hh En Ec c Hc Ecn.
    apply in_compare in Hc
      as [(_ & F & b' & Hb' & Hn' & D)|[(_ & _ & N)|(_ & _ & N)]].
    + apply firstNamed_In in F as [Hin _].
      assert (b' = b) by (apply (unique_name base); auto; congruence).
      assert (func c = h) by (apply (unique_name head); auto; congruence).
      subst b'. apply D. congruence.
    + apply (N h Hh). congruence.
    + apply (N b Hb). congruence.
Qed.

(** C6: no name occurs in the output of the comparator under two
    different change types, whatever the two sequences are (names may
    occur several times in them). *)
Theorem compare_one_bucket_per_name
        (base head : list ClarityFunction) (c1 c2 : ChangedFunction) :
  In c1 (compareAndIdentifyChanges base head) ->
  In c2 (compareAndIdentifyChanges base head) ->
  name c1 = name c2 ->
  changeType c1 = changeType c2.
Proof.
  intros H1 H2 E.
  apply in_compare in H1, H2.
  destruct H1 as [(T1 & F1 & b1 & Hb1 & Hn1 & _)|[(T1 & I1 & N1)|(T1 & I1 & N1)]];
  destruct H2 as [(T2 & F2 & b2 & Hb2 & Hn2 & _)|[(T2 & I2 & N2)|(T2 & I2 & N2)]];
  try congruence; exfalso.
  - apply firstNamed_In in F1 as [Hin _]. apply (N2 _ Hin); auto.
  - apply (N2 b1 Hb1). congruence.
  - apply firstNamed_In in F2 as [Hin _]. apply (N1 _ Hin); auto.
  - apply (N2 _ I1); auto.
  - apply (N1 b2 Hb2). congruence.
  - apply (N1 _ I2); auto.
Qed.

Lemma compare_one_bucket_per_name_witness :
  let c1 := {| func := dup_a; changeType := deleted |} in
  let c2 := {| func := dup_b; changeType := deleted |} in
  In c1 (compareAndIdentifyChanges [dup_a; dup_b] []) /\
  In c2 (compareAndIdentifyChanges [dup_a; dup_b] []) /\
  name c1 = name c2 /\
  changeType c1 = changeType c2.
Proof.
  intros c1 c2.
  assert (H1 : In c1 (compareAndIdentifyChanges [dup_a; dup_b] []))
    by (simpl; auto).
  assert (H2 : In c2 (compareAndIdentifyChanges [dup_a; dup_b] []))
    by (simpl; auto).
  split; [exact H1|]. split; [exact H2|]. split; [reflexivity|].
  exact (compare_one_bucket_per_name _ _ c1 c2 H1 H2 eq_refl).
Defined.

(** *** The boundary parser on unbalanced input *)

Lemma countParens_balance (s : string) (d : Z) :
  countParens s d = (d + balance s)%Z.
Proof.
  revert d; induction s as [|c s IH]; intros d; unfold balance in *; simpl.
  - lia.
  - rewrite IH.
    destruct (Ascii.eqb c "(") eqn:Eo; destruct (Ascii.eqb c ")") eqn:Ec;
      try lia.
    apply Ascii.eqb_eq in Eo, Ec. congruence.
Qed.

Lemma parseLines_app (filePath : string) (l1 l2 : list string) (n : nat)
      (st : ParseState) :
  parseLines filePath (l1 ++ l2) n st
  = parseLines filePath l2 (n + length l1) (parseLines filePath l1 n st).
Proof.
  revert n st; induction l1 as [|x l1 IH]; intros n st; simpl.
  - now rewrite Nat.add_0_r.
  - rewrite IH. f_equal. lia.
Qed.

(** The text the lines of [rest] add to a function that stays open. *)
Lemma tail_text_concat (header : string) (rest : list string) :
  String.concat (String JS.LF EmptyString) (header :: rest)
  = String.append header (tailText rest).
Proof.
  revert header; induction rest as [|x rest IH]; intros header.
  - simpl. induction header as [|c h IHh]; simpl; congruence.
  - change (String.concat (String JS.LF EmptyString) (header :: x :: rest))
      with (String.append header
              (String.append (String JS.LF EmptyString)
                 (String.concat (String JS.LF EmptyString) (x :: rest)))).
    rewrite IH. reflexivity.
Qed.

(** Inside a function whose depth does not come back to zero, the loop
    only collects text: nothing is pushed. *)
Lemma open_function_collects (filePath : string) (rest : list string)
      (n : nat) (st : ParseState) :
  inFunction st = true ->
  (forall k, 1 <= k <= length rest ->
             (openParens st + balanceOfLines (firstn k rest))%Z <> 0%Z) ->
  let final := parseLines filePath rest n st in
  inFunction final = true /\
  functions final = functions st /\
  currentFunction final = currentFunction st /\
  functionContent final
  = String.append (functionContent st) (tailText rest).
Proof.
  revert n st; induction rest as [|x rest IH]; intros n st In Open; simpl.
  - repeat split; auto.
    induction (functionContent st) as [|c h IHh]; simpl; congruence.
  - assert (D1 : (openParens st + balance x)%Z <> 0%Z).
    { specialize (Open 1 ltac:(simpl; lia)). simpl in Open.
      rewrite Z.add_0_r in Open. exact Open. }
    apply Z.eqb_neq in D1.
    set (st' := parseLine filePath n x st).
    assert (PL : st' =
      {| inFunction := true; currentFunction := currentFunction st;
         openParens := (openParens st + balance x)%Z;
         functionContent :=
           String.append (functionContent st)
             (String.append (String JS.LF EmptyString) x);
         functions := functions st |}).
    { unfold st', parseLine. rewrite In. cbn [negb].
      rewrite countParens_balance, D1. reflexivity. }
    assert (In' : inFunction st' = true) by (rewrite PL; reflexivity).
    destruct (IH (S n) st' In') as (F1 & F2 & F3 & F4).
    { rewrite PL; cbn [openParens]. intros k Hk.
      specialize (Open (S k) ltac:(simpl; lia)). simpl in Open. lia. }
    rewrite F1, F2, F3, F4, PL.
    cbn [inFunction functions currentFunction functionContent].
    repeat split; auto. rewrite !JSFacts.append_assoc. reflexivity.
Qed.

(** Functions are closed at the line the loop is at. *)
Lemma closed_before (filePath : string) (lines : list string) (n : nat)
      (st : ParseState) :
  Forall (fun f => endLine f <= n) (functions st) ->
  Forall (fun f => endLine f <= n + length lines)
         (functions (parseLines filePath lines n st)).
Proof.
  revert n st; induction lines as [|x lines IH]; intros n st H; simpl.
  - now rewrite Nat.add_0_r.
  - replace (n + S (length lines)) with (S n + length lines) by lia.
    apply IH.
    assert (H' : Forall (fun f => endLine f <= S n) (functions st)).
    { eapply Forall_impl; [|exact H]. simpl; intros; lia. }
    unfold parseLine.
    destruct (negb (inFunction st)).
    + destruct (RegExp.exec functionRegex x) as [m|]; [|exact H'].
      destruct (_ =? 0)%Z; cbn [functions]; [|exact H'].
      apply Forall_app; split; [exact H'|].
      constructor; [simpl; lia|constructor].
    + destruct (_ =? 0)%Z; cbn [functions]; [|exact H'].
      apply Forall_app; split; [exact H'|].
      constructor; [simpl; lia|constructor].
Qed.

(** C4 (as amended): when a header is matched and the depth counter
    never comes back to zero before the end of the file, the parser
    raises no exception (it is a total function) and consumes the rest
    of the file from that header on into one pending function; that
    function is never closed and is not in the output, which holds
    exactly the functions closed before the header. *)
Theorem unterminated_function_is_dropped
        (content filePath : string) (before : list string)
        (header : string) (rest : list string) (m : RegExp.MatchResult) :
  JS.split JS.LF content = before ++ header :: rest ->
  inFunction (parseLines filePath before 0 initialParseState) = false ->
  RegExp.exec functionRegex header = Some m ->
  (forall k, k <= length rest ->
     (1 + balance (JS.slice (RegExp.index m + 1) header)
        + balanceOfLines (firstn k rest))%Z <> 0%Z) ->
  let final :=
    parseLines filePath (JS.split JS.LF content) 0 initialParseState in
  parseClarityFunctions content filePath
  = functions (parseLines filePath before 0 initialParseState) /\
  inFunction final = true /\
  functionContent final
  = String.concat (String JS.LF EmptyString) (header :: rest) /\
  startLine (currentFunction final) = length before + 1 /\
  (forall f, In f (parseClarityFunctions content filePath) ->
             endLine f <= length before).
Proof.
  intros Split Idle Header Open final.
  unfold parseClarityFunctions. fold final.
  unfold final. rewrite Split, parseLines_app. cbn [parseLines].
  set (st := parseLines filePath before 0 initialParseState) in *.
  assert (D0 : (1 + balance (JS.slice (RegExp.index m + 1) header))%Z
               <> 0%Z).
  { specialize (Open 0 ltac:(lia)).
    cbn [firstn balanceOfLines fold_right] in Open.
    rewrite Z.add_0_r in Open. exact Open. }
  apply Z.eqb_neq in D0.
  set (st' := parseLine filePath (0 + length before) header st).
  assert (PL : st' =
    {| inFunction := true;
       currentFunction :=
         {| name := hd EmptyString
              (JS.split " "%char (JS.trim (RegExp.group m 2)));
            type := RegExp.group m 1;
            startLine := 0 + length before + 1;
            endLine := 0;
            content := header;
            file := filePath |};
       openParens :=
         (1 + balance (JS.slice (RegExp.index m + 1) header))%Z;
       functionContent := header;
       functions := functions st |}).
  { unfold st', parseLine. rewrite Idle, Header. cbn [negb].
    rewrite countParens_balance, D0. reflexivity. }
  destruct (open_function_collects filePath rest
              (S (0 + length before)) st')
    as (F1 & F2 & F3 & F4).
  - rewrite PL; reflexivity.
  - rewrite PL; cbn [openParens]. intros k Hk. apply Open. lia.
  - rewrite F1, F2, F3, F4, PL.
    cbn [functions currentFunction functionContent startLine].
    repeat split; auto.
    + symmetry. apply tail_text_concat.
    + intros f Hf.
      pose proof (closed_before filePath before 0 initialParseState
                    (Forall_nil _)) as C.
      rewrite Forall_forall in C. apply (C f Hf).
Qed.

(** C4 (as stated) fails: the header of [f] is matched and its
    parentheses never balance, and [f] is not in the output; only [g],
    closed before, is. *)
Lemma unterminated_function_counterexample :
  parseClarityFunctions unbalanced "c.clar"
  = [ {| name := "g"; type := "read-only"; startLine := 1; endLine := 1;
         content := "(define-read-only (g) (ok u0))";
         file := "c.clar" |} ].
Proof. vm_compute. reflexivity. Qed.

Lemma unterminated_function_is_dropped_witness :
  JS.split JS.LF unbalanced
  = ["(define-read-only (g) (ok u0))"]
      ++ "(define-public (f)" :: ["  (ok true"] /\
  inFunction (parseLines "c.clar" ["(define-read-only (g) (ok u0))"] 0
                         initialParseState) = false /\
  RegExp.exec functionRegex "(define-public (f)" = Some headerMatch /\
  parseClarityFunctions unbalanced "c.clar"
  = functions (parseLines "c.clar" ["(define-read-only (g) (ok u0))"] 0
                          initialParseState) /\
  functionContent
    (parseLines "c.clar" (JS.split JS.LF unbalanced) 0 initialParseState)
  = String.concat (String JS.LF EmptyString)
                  ["(define-public (f)"; "  (ok true"].
Proof.
  assert (S : JS.split JS.LF unbalanced
              = ["(define-read-only (g) (ok u0))"]
                  ++ "(define-public (f)" :: ["  (ok true"])
    by (vm_compute; reflexivity).
  assert (I : inFunction
                (parseLines "c.clar" ["(define-read-only (g) (ok u0))"] 0
                            initialParseState) = false)
    by (vm_compute; reflexivity).
  assert (X : RegExp.exec functionRegex "(define-public (f)"
              = Some headerMatch)
    by (vm_compute; reflexivity).
  assert (O : forall k, k <= length ["  (ok true"] ->
     (1 + balance (JS.slice (RegExp.index headerMatch + 1)
                            "(define-public (f)")
        + balanceOfLines (firstn k ["  (ok true"]))%Z <> 0%Z).
  { intros k Hk. destruct k as [|[|k]]; vm_compute; discriminate. }
  destruct (unterminated_function_is_dropped
              unbalanced "c.clar" _ _ _ headerMatch S I X O)
    as (P1 & _ & P3 & _).
  repeat split; auto.
Defined.

(** *** Files missing on one side *)

Lemma parse_empty_content (filePath : string) :
  parseClarityFunctions EmptyString filePath = [].
Proof. vm_compute. reflexivity. Qed.

Lemma isFalsy_true (s : string) : JS.isFalsy s = true <-> s = EmptyString.
Proof. destruct s; simpl; split; congruence. Qed.

Lemma changesInFile_no_base (getFileContent : string -> string -> string)
      (baseRef headRef file : string) :
  getFileContent baseRef file = EmptyString ->
  changesInFile getFileContent baseRef headRef file
  = map (fun f => {| func := f; changeType := added |})
        (parseClarityFunctions (getFileContent headRef file) file).
Proof. intros E. unfold changesInFile. rewrite E. reflexivity. Qed.

Lemma changesInFile_no_head (getFileContent : string -> string -> string)
      (baseRef headRef file : string) :
  getFileContent headRef file = EmptyString ->
  changesInFile getFileContent baseRef headRef file
  = map (fun f => {| func := f; changeType := deleted |})
        (parseClarityFunctions (getFileContent baseRef file) file).
Proof.
  intros E. unfold changesInFile. rewrite E.
  destruct (JS.isFalsy (getFileContent baseRef file)) eqn:B.
  - apply isFalsy_true in B. rewrite B, parse_empty_content. reflexivity.
  - reflexivity.
Qed.

(** C5: for a file of the run whose base content is unavailable (the
    fetcher gives the empty text), what the file contributes is exactly
    its head functions, each marked "added", and each of them is in the
    result of the run; when the head content is unavailable, it is
    exactly its base functions, each marked "deleted". *)
Theorem missing_revision_all_added_or_deleted
        (getFileContent : string -> string -> string)
        (baseRef headRef : string) (filteredFiles : list string)
        (file : string) :
  In file filteredFiles ->
  (getFileContent baseRef file = EmptyString ->
   changesInFile getFileContent baseRef headRef file
   = map (fun f => {| func := f; changeType := added |})
         (parseClarityFunctions (getFileContent headRef file) file)
   /\
   forall f,
     In f (parseClarityFunctions (getFileContent headRef file) file) ->
     In {| func := f; changeType := added |}
        (detectChangedFunctions getFileContent baseRef headRef
                                filteredFiles))
  /\
  (getFileContent headRef file = EmptyString ->
   changesInFile getFileContent baseRef headRef file
   = map (fun f => {| func := f; changeType := deleted |})
         (parseClarityFunctions (getFileContent baseRef file) file)
   /\
   forall f,
     In f (parseClarityFunctions (getFileContent baseRef file) file) ->
     In {| func := f; changeType := deleted |}
        (detectChangedFunctions getFileContent baseRef headRef
                                filteredFiles)).
Proof.
  intros Hfile. split; intros E.
  - split; [now apply changesInFile_no_base|].
    intros f Hf. unfold detectChangedFunctions. apply in_flat_map.
    exists file. split; auto. rewrite changesInFile_no_base by exact E.
    apply in_map_iff. exists f; auto.
  - split; [now apply changesInFile_no_head|].
    intros f Hf. unfold detectChangedFunctions. apply in_flat_map.
    exists file. split; auto. rewrite changesInFile_no_head by exact E.
    apply in_map_iff. exists f; auto.
Qed.

Lemma missing_revision_witness :
  In "c.clar" ["c.clar"] /\
  newFileFetcher "base" "c.clar" = EmptyString /\
  In {| func := dup_a; changeType := added |}
     (detectChangedFunctions newFileFetcher "base" "head" ["c.clar"]).
Proof.
  assert (Hin : In "c.clar" ["c.clar"]) by (left; reflexivity).
  split; [exact Hin|]. split; [reflexivity|].
  destruct (missing_revision_all_added_or_deleted
              newFileFetcher "base" "head" ["c.clar"] "c.clar" Hin)
    as [Hadd _].
  destruct (Hadd eq_refl) as [_ Hall].
  apply Hall. vm_compute. left. reflexivity.
Defined.

End ParserFacts.

(* ================================================================= *)
(** ** Findings *)

Module SarifFacts.

Import Runner Sarif.

Lemma toSARIFResult_line (result : ESBMCResult) (failure : FailureDetails) :
  ((0 < lineNumber failure)%Z ->
   startLine (toSARIFResult result failure) = lineNumber failure) /\
  ((lineNumber failure <= 0)%Z ->
   startLine (toSARIFResult result failure) = 1%Z) /\
  (0 < startLine (toSARIFResult result failure))%Z.
Proof.
  unfold toSARIFResult; simpl.
  destruct (lineNumber failure >? 0)%Z eqn:E.
  - apply Z.gtb_lt in E. repeat split; auto; lia.
  - rewrite Z.gtb_ltb in E. apply Z.ltb_ge in E. repeat split; auto; lia.
Qed.

Lemma in_convert (esbmcResults : list ESBMCResult) (s : SARIFResult) :
  In s (convertToSARIFResults esbmcResults) <->
  exists result failure,
    In result esbmcResults /\ verified result = false /\
    In failure (failures result) /\ s = toSARIFResult result failure.
Proof.
  unfold convertToSARIFResults. rewrite in_flat_map. split.
  - intros (r & Hr & H). destruct (verified r) eqn:V; simpl in H; [easy|].
    apply in_map_iff in H as (f & <- & Hf). exists r, f; auto.
  - intros (r & f & Hr & V & Hf & ->). exists r. split; auto.
    rewrite V; simpl. apply in_map; exact Hf.
Qed.

(** C9: every failure of a result that is not verified gives one
    finding, whose line is the line number of the failure when that
    number is positive and 1 otherwise (so a line number of -1 gives
    line 1); every finding comes from such a failure, and no finding has
    a line that is zero or negative. *)
Theorem finding_line_is_positive (esbmcResults : list ESBMCResult) :
  (forall result failure,
      In result esbmcResults -> verified result = false ->
      In failure (failures result) ->
      In (toSARIFResult result failure)
         (convertToSARIFResults esbmcResults) /\
      ((0 < lineNumber failure)%Z ->
       startLine (toSARIFResult result failure) = lineNumber failure) /\
      ((lineNumber failure <= 0)%Z ->
       startLine (toSARIFResult result failure) = 1%Z) /\
      (lineNumber failure = (-1)%Z ->
       startLine (toSARIFResult result failure) = 1%Z)) /\
  (forall s,
      In s (convertToSARIFResults esbmcResults) ->
      (0 < startLine s)%Z /\
      exists result failure,
        In result esbmcResults /\ verified result = false /\
        In failure (failures result) /\ s = toSARIFResult result failure).
Proof.
  split.
  - intros r f Hr V Hf.
    destruct (toSARIFResult_line r f) as (P & N & _).
    split; [apply in_convert; exists r, f; auto|].
    repeat split; auto. intros E. apply N. lia.
  - intros s Hs. apply in_convert in Hs as (r & f & Hr & V & Hf & ->).
    split; [apply toSARIFResult_line|]. exists r, f; auto.
Qed.

End SarifFacts.

(* ================================================================= *)
(** ** Classification of the checker output *)

Module RunnerFacts.

Import Runner Spec Samples.

(** *** The loop of [parseFailingFunctions] *)

Lemma skipFiller_ge (fuel : nat) (lines : list string) (n : nat) :
  n <= skipFiller fuel lines n.
Proof.
  revert n; induction fuel as [|fuel IH]; intros n; simpl; [lia|].
  destruct ((n <? length lines) && Utils.isFillerLine (lineAt lines n));
    [|lia].
  specialize (IH (S n)). lia.
Qed.

(** With enough fuel the [while] loop stops for the reason the source
    gives: the end of the lines, or a line that is not a filler; and it
    only walks over fillers. *)
Lemma skipFiller_stops (fuel : nat) (lines : list string) (n : nat) :
  length lines - n <= fuel ->
  let j := skipFiller fuel lines n in
  (length lines <= j \/ Utils.isFillerLine (lineAt lines j) = false) /\
  (forall m, n <= m < j ->
             m < length lines /\ Utils.isFillerLine (lineAt lines m) = true).
Proof.
  revert n; induction fuel as [|fuel IH]; intros n Hf; simpl.
  - split; [left; lia|]. intros m Hm; lia.
  - destruct (n <? length lines) eqn:Hn; simpl.
    + apply Nat.ltb_lt in Hn.
      destruct (Utils.isFillerLine (lineAt lines n)) eqn:Hfill.
      * destruct (IH (S n)) as [Hstop Hwalk]; [lia|]. split; [exact Hstop|].
        intros m Hm. destruct (Nat.eq_dec m n) as [->|Hne]; [auto|].
        apply Hwalk. lia.
      * split; [right; exact Hfill|]. intros m Hm; lia.
    + apply Nat.ltb_ge in Hn. split; [left; exact Hn|]. intros m Hm; lia.
Qed.

(** Past the last line nothing is skipped. *)
Lemma skipFiller_past_end (fuel : nat) (lines : list string) (n : nat) :
  length lines <= n -> skipFiller fuel lines n = n.
Proof.
  intros H. destruct fuel as [|fuel]; simpl; [reflexivity|].
  apply Nat.ltb_ge in H. rewrite H. reflexivity.
Qed.

(** When only fillers are left, the [while] loop runs to the end. *)
Lemma skipFiller_all_fillers (lines : list string) (n : nat) :
  (forall m, n <= m -> lineAt lines m = EmptyString) ->
  length lines <= skipFiller (length lines) lines n /\
  lineAt lines (skipFiller (length lines) lines n) = EmptyString.
Proof.
  intros Hblank.
  destruct (skipFiller_stops (length lines) lines n) as [Hstop _]; [lia|].
  pose proof (skipFiller_ge (length lines) lines n) as Hge.
  split; [|apply Hblank; exact Hge].
  destruct Hstop as [Hend|Hfill]; [exact Hend|].
  unfold Utils.isFillerLine in Hfill. apply String.eqb_neq in Hfill.
  exfalso. apply Hfill. unfold lineAt at 1.
  specialize (Hblank _ Hge). unfold lineAt in Hblank.
  rewrite <- Hblank at 2.
  generalize (nth (skipFiller (length lines) lines n) lines EmptyString).
  intros t. apply JSFacts.trim_idempotent.
Qed.

Lemma isFillerLine_lineAt (lines : list string) (m : nat) :
  Utils.isFillerLine (lineAt lines m) = true <->
  lineAt lines m = EmptyString.
Proof.
  unfold Utils.isFillerLine, lineAt. rewrite JSFacts.trim_idempotent.
  apply String.eqb_eq.
Qed.

(** The [while] loop stops at the first line that is not blank. *)
Lemma skipFiller_finds (lines : list string) (n j : nat) :
  n <= j -> j < length lines ->
  (forall m, n <= m < j -> lineAt lines m = EmptyString) ->
  lineAt lines j <> EmptyString ->
  skipFiller (length lines) lines n = j.
Proof.
  intros Hnj Hj Blank Text.
  destruct (skipFiller_stops (length lines) lines n) as [Stop Walk]; [lia|].
  pose proof (skipFiller_ge (length lines) lines n) as Ge.
  set (j' := skipFiller (length lines) lines n) in *.
  destruct (Nat.lt_trichotomy j' j) as [Lt|[Eq|Gt]]; [|exact Eq|].
  - exfalso. destruct Stop as [End|NotFiller]; [lia|].
    assert (F : Utils.isFillerLine (lineAt lines j') = true)
      by (apply isFillerLine_lineAt, Blank; lia).
    congruence.
  - exfalso. destruct (Walk j) as [_ F]; [lia|].
    apply isFillerLine_lineAt in F. contradiction.
Qed.

Lemma trigger_not_marker (line : string) :
  JS.startsWith violatedProperty line = true ->
  String.eqb line counterexampleMarker = false.
Proof.
  intros H. apply JSFacts.prefix_inv in H as [t ->]. reflexivity.
Qed.

Lemma trim_keeps_trigger (tail : string) :
  JS.startsWith violatedProperty
    (JS.trim (String.append violatedProperty tail)) = true.
Proof.
  unfold JS.trim.
  change (JS.trimStart (String.append violatedProperty tail))
    with (String.append violatedProperty tail).
  destruct (JSFacts.trimEnd_append_keep
              "Violated property" ":"%char tail eq_refl) as [u E].
  change (String.append violatedProperty tail)
    with (String.append "Violated property" (String ":"%char tail)).
  rewrite E.
  change (String.append "Violated property" (String ":"%char u))
    with (String.append violatedProperty u).
  apply JSFacts.prefix_append.
Qed.

Lemma body_trigger (lines : list string) (s : LoopState) :
  inCounterexampleBlock s = true ->
  RegExp.exec stateLineRegex (lineAt lines (i s)) = None ->
  JS.startsWith violatedProperty (lineAt lines (i s)) = true ->
  body lines s = emitFailure lines s.
Proof.
  intros B X V. unfold body.
  rewrite (trigger_not_marker _ V), B, X, V. reflexivity.
Qed.

Lemma loop_add (n m : nat) (lines : list string) (s : LoopState) :
  loop (n + m) lines s = loop m lines (loop n lines s).
Proof.
  revert s; induction n as [|n IH]; intros s; [reflexivity|].
  cbn [Nat.add loop]. destruct (i s <? length lines) eqn:E; [apply IH|].
  destruct m; simpl; [reflexivity|]. rewrite E. reflexivity.
Qed.

(** The five ways through the body of the loop. *)
Lemma body_cases (lines : list string) (s : LoopState) :
  let line := lineAt lines (i s) in
  (line = counterexampleMarker /\
   body lines s =
     {| i := S (i s); inCounterexampleBlock := true;
        currentFnName := currentFnName s;
        currentLineNumber := currentLineNumber s;
        results := results s |}) \/
  (line <> counterexampleMarker /\ inCounterexampleBlock s = false /\
   body lines s = advance s) \/
  (line <> counterexampleMarker /\ inCounterexampleBlock s = true /\
   exists m, RegExp.exec stateLineRegex line = Some m /\
     body lines s =
       {| i := S (i s); inCounterexampleBlock := true;
          currentFnName := Some (RegExp.group m 2);
          currentLineNumber := Some (JS.parseInt (RegExp.group m 1));
          results := results s |}) \/
  (line <> counterexampleMarker /\ inCounterexampleBlock s = true /\
   RegExp.exec stateLineRegex line = None /\
   JS.startsWith violatedProperty line = true /\
   body lines s = emitFailure lines s) \/
  (line <> counterexampleMarker /\ inCounterexampleBlock s = true /\
   RegExp.exec stateLineRegex line = None /\
   JS.startsWith violatedProperty line = false /\
   body lines s = advance s).
Proof.
  intros line. unfold body. fold line.
  destruct (String.eqb line counterexampleMarker) eqn:Em.
  - left. apply String.eqb_eq in Em. auto.
  - apply String.eqb_neq in Em. right.
    destruct (inCounterexampleBlock s) eqn:Eb; [|left; auto].
    right.
    destruct (RegExp.exec stateLineRegex line) as [m|] eqn:Ex.
    + left. repeat split; auto. exists m; auto.
    + right.
      destruct (JS.startsWith violatedProperty line) eqn:Ev;
        [left|right]; auto.
Qed.

Lemma emitFailure_i (lines : list string) (s : LoopState) :
  i s < i (emitFailure lines s).
Proof.
  unfold emitFailure; simpl.
  pose proof (skipFiller_ge (length lines) lines (S (i s))) as H1.
  pose proof (skipFiller_ge (length lines) lines
                (S (skipFiller (length lines) lines (S (i s))))) as H2.
  lia.
Qed.

(** Every iteration moves the index forward. *)
Lemma body_i (lines : list string) (s : LoopState) :
  i s < i (body lines s).
Proof.
  destruct (body_cases lines s)
    as [(_ & ->)|[(_ & _ & ->)|[(_ & _ & m & _ & ->)
       |[(_ & _ & _ & _ & ->)|(_ & _ & _ & _ & ->)]]]];
    simpl; try lia.
  apply emitFailure_i.
Qed.

Lemma loop_S (n : nat) (lines : list string) (s : LoopState) :
  loop (S n) lines s =
  if i (loop n lines s) <? length lines
  then body lines (loop n lines s)
  else loop n lines s.
Proof.
  revert s; induction n as [|n IH]; intros s.
  - simpl. destruct (i s <? length lines); reflexivity.
  - change (loop (S (S n)) lines s)
      with (if i s <? length lines
            then loop (S n) lines (body lines s) else s).
    destruct (i s <? length lines) eqn:E.
    + rewrite IH. simpl. rewrite E. reflexivity.
    + simpl. rewrite E, E. reflexivity.
Qed.

Lemma stateAfter_S (lines : list string) (k : nat) :
  stateAfter lines (S k) =
  if i (stateAfter lines k) <? length lines
  then body lines (stateAfter lines k)
  else stateAfter lines k.
Proof. apply loop_S. Qed.

Lemma stateAfter_running (lines : list string) (k : nat) :
  running lines k ->
  stateAfter lines (S k) = body lines (stateAfter lines k).
Proof.
  unfold running. intros H. rewrite stateAfter_S.
  apply Nat.ltb_lt in H. rewrite H. reflexivity.
Qed.

Lemma stateAfter_finished (lines : list string) (k : nat) :
  ~ running lines k -> stateAfter lines (S k) = stateAfter lines k.
Proof.
  unfold running. intros H. rewrite stateAfter_S.
  apply Nat.nlt_ge, Nat.ltb_ge in H. rewrite H. reflexivity.
Qed.

Lemma running_dec (lines : list string) (k : nat) :
  running lines k \/ ~ running lines k.
Proof. unfold running. lia. Qed.

(** After [k] iterations the index is at least [k], unless the loop has
    ended. *)
Lemma stateAfter_progress (lines : list string) (k : nat) :
  k <= i (stateAfter lines k) \/ length lines <= i (stateAfter lines k).
Proof.
  induction k as [|k IH]; [left; simpl; lia|].
  destruct (running_dec lines k) as [R|R].
  - rewrite (stateAfter_running _ _ R).
    pose proof (body_i lines (stateAfter lines k)). unfold running in R.
    destruct IH; [left; lia|lia].
  - rewrite (stateAfter_finished _ _ R). unfold running in R. right; lia.
Qed.

Lemma running_before (lines : list string) (k : nat) :
  running lines (S k) -> running lines k.
Proof.
  intros R. destruct (running_dec lines k) as [R'|R']; [exact R'|].
  unfold running in *. rewrite (stateAfter_finished _ _ R') in R. lia.
Qed.

(** Later iterations read later lines. *)
Lemma index_increasing (lines : list string) (k k' : nat) :
  k < k' -> running lines k' ->
  i (stateAfter lines k) < i (stateAfter lines k').
Proof.
  intros Hk. induction Hk as [|k' Hk IH]; intros R.
  - apply running_before in R as R'.
    rewrite (stateAfter_running _ _ R'). apply body_i.
  - apply running_before in R as R'. specialize (IH R').
    rewrite (stateAfter_running _ _ R').
    pose proof (body_i lines (stateAfter lines k')). lia.
Qed.

Lemma running_lt (lines : list string) (k : nat) :
  running lines k -> k < length lines.
Proof.
  unfold running. intros R.
  destruct (stateAfter_progress lines k); lia.
Qed.

(** The loop has ended after [length lines] iterations: the fuel of
    [parseFailingFunctions] is enough. *)
Lemma loop_exits (lines : list string) :
  ~ running lines (length lines).
Proof. intros R. apply running_lt in R. lia. Qed.

Lemma finished_stays (lines : list string) (k m : nat) :
  ~ running lines k -> k <= m -> stateAfter lines m = stateAfter lines k.
Proof.
  intros R Hkm. induction Hkm as [|m Hkm IH]; [reflexivity|].
  rewrite stateAfter_finished; [exact IH|].
  unfold running in *. rewrite IH. exact R.
Qed.

Lemma parseFailingFunctions_stateAfter (clarOutput : string) (n : nat) :
  length (JS.split JS.LF clarOutput) <= n ->
  parseFailingFunctions clarOutput
  = results (stateAfter (JS.split JS.LF clarOutput) n).
Proof.
  intros H. unfold parseFailingFunctions.
  rewrite (finished_stays _ _ n (loop_exits _) H). reflexivity.
Qed.

(** What an iteration does to the records: nothing, or one more. *)
Lemma body_results (lines : list string) (s : LoopState) :
  results (body lines s) = results s \/
  (exists r, results (body lines s) = results s ++ [r] /\
             body lines s = emitFailure lines s /\
             inCounterexampleBlock s = true /\
             RegExp.exec stateLineRegex (lineAt lines (i s)) = None /\
             JS.startsWith violatedProperty (lineAt lines (i s)) = true).
Proof.
  destruct (body_cases lines s)
    as [(_ & ->)|[(_ & _ & ->)|[(_ & _ & m & _ & ->)
       |[(_ & B & X & V & E)|(_ & _ & _ & _ & ->)]]]];
    try (left; reflexivity).
  right. rewrite E. eexists. repeat split; auto.
Qed.

(** Records are never removed. *)
Lemma results_grow (lines : list string) (k m : nat) :
  k <= m ->
  exists l, results (stateAfter lines m) = results (stateAfter lines k) ++ l.
Proof.
  intros Hkm. induction Hkm as [|m Hkm (l & IH)].
  - exists []. now rewrite app_nil_r.
  - destruct (running_dec lines m) as [R|R].
    + rewrite (stateAfter_running _ _ R).
      destruct (body_results lines (stateAfter lines m))
        as [->|(r & -> & _)].
      * exists l; exact IH.
      * exists (l ++ [r]). rewrite IH, app_assoc. reflexivity.
    + rewrite (stateAfter_finished _ _ R). exists l; exact IH.
Qed.

Lemma emitted_in_output (clarOutput : string) (k : nat)
      (r : FailureDetails) :
  emittedAt (JS.split JS.LF clarOutput) k r ->
  In r (parseFailingFunctions clarOutput).
Proof.
  unfold emittedAt. intros E.
  set (lines := JS.split JS.LF clarOutput) in *.
  rewrite (parseFailingFunctions_stateAfter _ (S k + length lines))
    by (fold lines; lia).
  fold lines.
  destruct (results_grow lines (S k) (S k + length lines)) as [l ->];
    [lia|].
  rewrite E. apply in_or_app; left. apply in_or_app; right. left; reflexivity.
Qed.

Lemma app_one_neq {A} (l : list A) (r : A) : l <> l ++ [r].
Proof.
  intros E. apply (f_equal (@length A)) in E.
  rewrite length_app in E. simpl in E. lia.
Qed.

(** A record is only pushed by an iteration that reads a trigger, and
    that iteration closes the block. *)
Lemma emittedAt_trigger (lines : list string) (k : nat)
      (r : FailureDetails) :
  emittedAt lines k r ->
  readsTrigger lines k /\
  stateAfter lines (S k) = emitFailure lines (stateAfter lines k) /\
  inCounterexampleBlock (stateAfter lines (S k)) = false.
Proof.
  unfold emittedAt. intros E.
  destruct (running_dec lines k) as [R|R].
  - rewrite (stateAfter_running _ _ R) in *.
    destruct (body_results lines (stateAfter lines k))
      as [Same|(r' & _ & Eb & B & X & V)].
    + rewrite Same in E. elim (app_one_neq _ _ E).
    + split; [unfold readsTrigger, lineRead; auto|].
      split; [exact Eb|]. rewrite Eb. reflexivity.
  - rewrite (stateAfter_finished _ _ R) in E. elim (app_one_neq _ _ E).
Qed.

Lemma trigger_emits (lines : list string) (k : nat) :
  readsTrigger lines k ->
  stateAfter lines (S k) = emitFailure lines (stateAfter lines k).
Proof.
  intros (R & B & X & V). rewrite (stateAfter_running _ _ R).
  unfold lineRead in *.
  destruct (body_cases lines (stateAfter lines k))
    as [(M & _)|[(_ & B' & _)|[(_ & _ & m & X' & _)
       |[(_ & _ & _ & _ & E)|(_ & _ & _ & V' & _)]]]];
    try congruence.
  rewrite M in V. discriminate V.
Qed.

(** A closed block is only opened again by a marker line. *)
Lemma block_reopened (lines : list string) (a b : nat) :
  a <= b ->
  inCounterexampleBlock (stateAfter lines a) = false ->
  inCounterexampleBlock (stateAfter lines b) = true ->
  exists k, a <= k < b /\ readsMarker lines k.
Proof.
  intros Hab Ha. induction Hab as [|b Hab IH]; intros Hb; [congruence|].
  destruct (inCounterexampleBlock (stateAfter lines b)) eqn:Eb.
  - destruct (IH eq_refl) as (k & Hk & M). exists k. split; [lia|exact M].
  - exists b. split; [lia|].
    destruct (running_dec lines b) as [R|R].
    + split; [exact R|]. unfold lineRead.
      rewrite (stateAfter_running _ _ R) in Hb.
      destruct (body_cases lines (stateAfter lines b))
        as [(M & _)|[(_ & _ & E)|[(_ & B & _)
           |[(_ & B & _)|(_ & B & _)]]]];
        try congruence.
      rewrite E in Hb. simpl in Hb. congruence.
    + rewrite (stateAfter_finished _ _ R) in Hb. congruence.
Qed.

(** Every record the loop holds was pushed by an earlier iteration. *)
Lemma record_origin (lines : list string) (n : nat) (r : FailureDetails) :
  In r (results (stateAfter lines n)) ->
  exists k, readsTrigger lines k /\ emittedAt lines k r.
Proof.
  induction n as [|n IH]; [intros []|].
  destruct (running_dec lines n) as [R|R].
  - rewrite (stateAfter_running _ _ R).
    destruct (body_results lines (stateAfter lines n))
      as [->|(r' & E & _)]; [exact IH|].
    rewrite E. intros H. apply in_app_or in H as [H|[<-|[]]]; [auto|].
    assert (Em : emittedAt lines n r').
    { unfold emittedAt. rewrite (stateAfter_running _ _ R). exact E. }
    exists n. split; [|exact Em].
    apply (emittedAt_trigger _ _ _ Em).
  - rewrite (stateAfter_finished _ _ R). exact IH.
Qed.

(** *** Counting marker lines *)

Lemma markerCount_app (l1 l2 : list string) :
  markerCount (l1 ++ l2) = markerCount l1 + markerCount l2.
Proof. unfold markerCount. now rewrite filter_app, length_app. Qed.

Lemma firstn_S_nth {A} (d : A) (l : list A) (n : nat) :
  n < length l -> firstn (S n) l = firstn n l ++ [nth n l d].
Proof.
  revert n; induction l as [|x l IH]; intros n H; simpl in H; [lia|].
  destruct n as [|n]; [reflexivity|].
  cbn [firstn nth app]. f_equal. apply IH. lia.
Qed.

Lemma markerCount_firstn_S (lines : list string) (n : nat) :
  markerCount (firstn n lines) <= markerCount (firstn (S n) lines).
Proof.
  destruct (Nat.lt_ge_cases n (length lines)) as [H|H].
  - rewrite (firstn_S_nth EmptyString) by exact H.
    rewrite markerCount_app. lia.
  - rewrite !firstn_all2 by lia. lia.
Qed.

Lemma markerCount_firstn_mono (lines : list string) (n m : nat) :
  n <= m ->
  markerCount (firstn n lines) <= markerCount (firstn m lines).
Proof.
  induction 1 as [|m _ IH]; [lia|].
  pose proof (markerCount_firstn_S lines m). lia.
Qed.

Lemma markerCount_firstn_marker (lines : list string) (n : nat) :
  n < length lines ->
  lineAt lines n = counterexampleMarker ->
  markerCount (firstn (S n) lines) = S (markerCount (firstn n lines)).
Proof.
  intros H M. rewrite (firstn_S_nth EmptyString) by exact H.
  rewrite markerCount_app. unfold markerCount at 2. simpl.
  unfold lineAt in M. rewrite M. simpl. lia.
Qed.

Lemma markerCount_firstn_le (lines : list string) (n : nat) :
  markerCount (firstn n lines) <= markerCount lines.
Proof.
  rewrite <- (firstn_skipn n lines) at 2. rewrite markerCount_app. lia.
Qed.

(** Every record, and an open block, is paid for by a marker line the
    loop has gone past. *)
Lemma records_paid_by_markers (lines : list string) (k : nat) :
  length (results (stateAfter lines k))
  + (if inCounterexampleBlock (stateAfter lines k) then 1 else 0)
  <= markerCount (firstn (i (stateAfter lines k)) lines).
Proof.
  induction k as [|k IH]; [simpl; lia|].
  destruct (running_dec lines k) as [R|R];
    [|now rewrite (stateAfter_finished _ _ R)].
  rewrite (stateAfter_running _ _ R). unfold running in R.
  set (s := stateAfter lines k) in *.
  pose proof (markerCount_firstn_S lines (i s)) as Hstep.
  destruct (body_cases lines s)
    as [(M & ->)|[(_ & B & ->)|[(_ & B & m & _ & ->)
       |[(_ & B & _ & _ & E)|(_ & B & _ & _ & ->)]]]];
    unfold advance;
    cbn [i results inCounterexampleBlock];
    try (rewrite ?B in *; lia).
  - rewrite (markerCount_firstn_marker _ _ R M).
    destruct (inCounterexampleBlock s); lia.
  - rewrite E.
    pose proof (emitFailure_i lines s) as Hi.
    pose proof (markerCount_firstn_mono lines (i s)
                  (i (emitFailure lines s)) ltac:(lia)) as Hm.
    rewrite B in IH. unfold emitFailure in *.
    cbn [i results inCounterexampleBlock] in *.
    rewrite length_app. cbn [length]. lia.
Qed.

(** *** The annotation carried by the loop *)

(** What iteration [k] does to the current annotation. *)
Lemma annotation_step (lines : list string) (k : nat) :
  match annotationRead lines k with
  | Some (L, G) =>
      currentFnName (stateAfter lines (S k)) = Some G /\
      currentLineNumber (stateAfter lines (S k)) = Some L
  | None =>
      currentFnName (stateAfter lines (S k))
      = currentFnName (stateAfter lines k) /\
      currentLineNumber (stateAfter lines (S k))
      = currentLineNumber (stateAfter lines k)
  end.
Proof.
  unfold annotationRead.
  destruct (running_dec lines k) as [R|R].
  - rewrite (stateAfter_running _ _ R). unfold running in R.
    apply Nat.ltb_lt in R. rewrite R. cbn [andb].
    destruct (body_cases lines (stateAfter lines k))
      as [(M & ->)|[(M & B & ->)|[(M & B & m & X & ->)
         |[(M & B & X & _ & ->)|(M & B & X & _ & ->)]]]].
    + rewrite M, String.eqb_refl. simpl. auto.
    + rewrite B, andb_false_r. simpl. auto.
    + apply String.eqb_neq in M. rewrite M, B, X. simpl. auto.
    + apply String.eqb_neq in M. rewrite M, B, X. simpl. auto.
    + apply String.eqb_neq in M. rewrite M, B, X. simpl. auto.
  - rewrite (stateAfter_finished _ _ R). unfold running in R.
    apply Nat.nlt_ge, Nat.ltb_ge in R. rewrite R. simpl. auto.
Qed.

(** The current annotation is the one of the last State line read in
    an open block since the start of the output, if there is one.  It is
    not cleared when a block is closed. *)
Lemma annotation_invariant (lines : list string) (k : nat) :
  (exists j L G,
      j < k /\ annotationRead lines j = Some (L, G) /\
      (forall j', j < j' < k -> annotationRead lines j' = None) /\
      currentFnName (stateAfter lines k) = Some G /\
      currentLineNumber (stateAfter lines k) = Some L) \/
  ((forall j, j < k -> annotationRead lines j = None) /\
   currentFnName (stateAfter lines k) = None /\
   currentLineNumber (stateAfter lines k) = None).
Proof.
  induction k as [|k IH].
  - right. split; [intros j Hj; lia|]. split; reflexivity.
  - pose proof (annotation_step lines k) as St.
    destruct (annotationRead lines k) as [[L G]|] eqn:A.
    + left. exists k, L, G. destruct St as [Sf Sl].
      repeat split; auto. intros j' Hj'; lia.
    + destruct St as [Sf Sl]. rewrite Sf, Sl.
      destruct IH as [(j & L & G & Hj & Aj & Between & Ef & El)
                     |(Never & Ef & El)].
      * left. exists j, L, G. repeat split; auto.
        intros j' Hj'. destruct (Nat.eq_dec j' k) as [->|Hne]; [exact A|].
        apply Between; lia.
      * right. repeat split; auto.
        intros j Hj. destruct (Nat.eq_dec j k) as [->|Hne]; [exact A|].
        apply Never; lia.
Qed.

(** C7 (as amended): the record pushed at a [Violated property:]
    trigger carries the function name and the line number of the last
    State line read in an open block anywhere before the trigger, be it
    in the same block or in an earlier, already closed one: closing a
    block does not clear the annotation.  The record carries
    [unknown_function] and -1 only when no State line was read in any
    block before the trigger. *)
Theorem record_carries_last_annotation (clarOutput : string) (k : nat) :
  let lines := JS.split JS.LF clarOutput in
  readsTrigger lines k ->
  exists r,
    emittedAt lines k r /\ In r (parseFailingFunctions clarOutput) /\
    ((exists j L G,
         j < k /\ annotationRead lines j = Some (L, G) /\
         (forall j', j < j' < k -> annotationRead lines j' = None) /\
         functionName r = G /\ lineNumber r = L) \/
     ((forall j, j < k -> annotationRead lines j = None) /\
      functionName r = "unknown_function" /\ lineNumber r = (-1)%Z)).
Proof.
  intros lines T.
  pose proof (trigger_emits lines k T) as E.
  eexists. split; [|split].
  { unfold emittedAt. rewrite E. unfold emitFailure.
    cbn [results]. reflexivity. }
  { apply (emitted_in_output clarOutput k). fold lines.
    unfold emittedAt. rewrite E. reflexivity. }
  cbn [functionName lineNumber].
  destruct (annotation_invariant lines k)
    as [(j & L & G & Hj & Aj & Between & -> & ->)|(Never & -> & ->)].
  - left. exists j, L, G. repeat split; auto.
  - right. repeat split; auto.
Qed.

(** C7 (as stated) fails: the second block is a marker line (read by
    iteration 3) directly followed by the trigger (read by iteration 4),
    with no State line; its record still carries function [f] and
    line 5, the annotation of the first block, where the claim gives
    [unknown_function] and -1. *)
Lemma stale_annotation_counterexample :
  parseFailingFunctions twoBlocks
  = [ {| functionName := "f"; lineNumber := 5%Z;
         title := "assertion"; failingCode := "(asserts! (> x u0))" |};
      {| functionName := "f"; lineNumber := 5%Z;
         title := "assertion"; failingCode := "(asserts! (> y u0))" |} ]
  /\ lineRead (JS.split JS.LF twoBlocks) 3 = counterexampleMarker
  /\ lineRead (JS.split JS.LF twoBlocks) 4 = violatedProperty.
Proof. repeat split; vm_compute; reflexivity. Qed.

Lemma record_carries_last_annotation_witness :
  readsTrigger (JS.split JS.LF twoBlocks) 4 /\
  exists r,
    emittedAt (JS.split JS.LF twoBlocks) 4 r /\
    In r (parseFailingFunctions twoBlocks) /\
    ((exists j L G,
         j < 4 /\
         annotationRead (JS.split JS.LF twoBlocks) j = Some (L, G) /\
         (forall j', j < j' < 4 ->
                     annotationRead (JS.split JS.LF twoBlocks) j' = None) /\
         functionName r = G /\ lineNumber r = L) \/
     ((forall j, j < 4 ->
                 annotationRead (JS.split JS.LF twoBlocks) j = None) /\
      functionName r = "unknown_function" /\ lineNumber r = (-1)%Z)).
Proof.
  assert (T : readsTrigger (JS.split JS.LF twoBlocks) 4).
  { unfold readsTrigger, running, lineRead.
    repeat split; try (vm_compute; reflexivity).
    vm_compute. lia. }
  split; [exact T|].
  exact (record_carries_last_annotation twoBlocks 4 T).
Defined.

(** C8: the records are at most as many as the [[Counterexample]]
    marker lines; between two records the loop reads a marker line;
    a [Violated property:] line read while no block is open leaves the
    records as they are; and every record of the result was pushed at a
    trigger read in an open block. *)
Theorem one_record_per_marker (clarOutput : string) :
  let lines := JS.split JS.LF clarOutput in
  length (parseFailingFunctions clarOutput) <= markerCount lines /\
  (forall k1 k2 r1 r2,
      k1 < k2 -> emittedAt lines k1 r1 -> emittedAt lines k2 r2 ->
      exists k,
        k1 < k < k2 /\ readsMarker lines k /\
        i (stateAfter lines k1) < i (stateAfter lines k)
        < i (stateAfter lines k2)) /\
  (forall k,
      running lines k ->
      inCounterexampleBlock (stateAfter lines k) = false ->
      JS.startsWith violatedProperty (lineRead lines k) = true ->
      results (stateAfter lines (S k)) = results (stateAfter lines k)) /\
  (forall r,
      In r (parseFailingFunctions clarOutput) ->
      exists k, readsTrigger lines k /\ emittedAt lines k r).
Proof.
  intros lines. repeat split.
  - rewrite (parseFailingFunctions_stateAfter _ (length lines))
      by (unfold lines; lia).
    fold lines.
    pose proof (records_paid_by_markers lines (length lines)) as P.
    pose proof (markerCount_firstn_le lines
                  (i (stateAfter lines (length lines)))) as Q.
    lia.
  - intros k1 k2 r1 r2 Hk E1 E2.
    apply emittedAt_trigger in E1 as (_ & _ & Closed).
    apply emittedAt_trigger in E2 as ((R2 & Open & _) & _).
    destruct (block_reopened lines (S k1) k2 Hk Closed Open)
      as (k & Hk' & M).
    exists k. split; [lia|]. split; [exact M|].
    split.
    + apply index_increasing; [lia|apply M].
    + apply index_increasing; [lia|exact R2].
  - intros k R B V. rewrite (stateAfter_running _ _ R).
    destruct (body_results lines (stateAfter lines k))
      as [Same|(_ & _ & _ & B' & _)]; [exact Same|congruence].
  - intros r Hr.
    rewrite (parseFailingFunctions_stateAfter _ (length lines)) in Hr
      by (unfold lines; lia).
    fold lines in Hr. apply (record_origin lines _ _ Hr).
Qed.

(** C10: when the trigger is followed by blank lines only, up to the
    end of the output, the record is still pushed, as the last record of
    the result, with the title [unknown-property] and the failing code
    [unknown-failing-code]. *)
Theorem blank_tail_gives_defaults (clarOutput : string) (k : nat) :
  let lines := JS.split JS.LF clarOutput in
  readsTrigger lines k ->
  (forall m, i (stateAfter lines k) < m -> lineAt lines m = EmptyString) ->
  exists r,
    parseFailingFunctions clarOutput
    = results (stateAfter lines k) ++ [r] /\
    emittedAt lines k r /\
    title r = "unknown-property" /\
    failingCode r = "unknown-failing-code".
Proof.
  intros lines T Blank.
  pose proof (trigger_emits lines k T) as E.
  set (s := stateAfter lines k) in *.
  destruct (skipFiller_all_fillers lines (S (i s))) as [End1 Line1];
    [intros m Hm; apply Blank; lia|].
  set (i1 := skipFiller (length lines) lines (S (i s))) in *.
  assert (Line2 :
            lineAt lines (skipFiller (length lines) lines (S i1))
            = EmptyString).
  { apply Blank. pose proof (skipFiller_ge (length lines) lines (S i1)).
    pose proof (skipFiller_ge (length lines) lines (S (i s))).
    fold i1 in H0. lia. }
  assert (Done : ~ running lines (S k)).
  { unfold running. rewrite E. unfold emitFailure. cbn [i]. fold i1.
    pose proof (skipFiller_ge (length lines) lines (S i1)). lia. }
  eexists. split; [|split].
  - rewrite (parseFailingFunctions_stateAfter _ (S k + length lines))
      by (fold lines; lia).
    fold lines.
    rewrite (finished_stays lines (S k) _ Done) by lia.
    rewrite E. unfold emitFailure. cbn [results]. reflexivity.
  - unfold emittedAt. fold s. rewrite E. reflexivity.
  - cbn [title failingCode]. fold i1. rewrite Line1, Line2.
    split; reflexivity.
Qed.

(** The same with a title line and nothing but blank lines after it:
    the title is that line, the failing code is the default. *)
Lemma missing_code_gives_default (clarOutput : string) (k j : nat) :
  let lines := JS.split JS.LF clarOutput in
  readsTrigger lines k ->
  i (stateAfter lines k) < j < length lines ->
  (forall m, i (stateAfter lines k) < m < j ->
             lineAt lines m = EmptyString) ->
  lineAt lines j <> EmptyString ->
  (forall m, j < m -> lineAt lines m = EmptyString) ->
  exists r,
    parseFailingFunctions clarOutput
    = results (stateAfter lines k) ++ [r] /\
    title r = lineAt lines j /\
    failingCode r = "unknown-failing-code".
Proof.
  intros lines T Hj Blank1 Text Blank2.
  pose proof (trigger_emits lines k T) as E.
  set (s := stateAfter lines k) in *.
  assert (I1 : skipFiller (length lines) lines (S (i s)) = j)
    by (apply skipFiller_finds; auto; try lia; intros m Hm; apply Blank1; lia).
  destruct (skipFiller_all_fillers lines (S j)) as [End2 Line2];
    [intros m Hm; apply Blank2; lia|].
  assert (Done : ~ running lines (S k)).
  { unfold running. rewrite E. unfold emitFailure. cbn [i].
    rewrite I1. lia. }
  eexists. split; [|split].
  - rewrite (parseFailingFunctions_stateAfter _ (S k + length lines))
      by (fold lines; lia).
    fold lines.
    rewrite (finished_stays lines (S k) _ Done) by lia.
    rewrite E. unfold emitFailure. cbn [results]. reflexivity.
  - cbn [title]. rewrite I1.
    destruct (lineAt lines j); [contradiction|reflexivity].
  - cbn [failingCode]. rewrite I1, Line2. reflexivity.
Qed.

Lemma blank_tail_gives_defaults_witness :
  let lines := JS.split JS.LF blankTail in
  readsTrigger lines 1 /\
  (forall m, i (stateAfter lines 1) < m -> lineAt lines m = EmptyString) /\
  exists r,
    parseFailingFunctions blankTail = results (stateAfter lines 1) ++ [r] /\
    emittedAt lines 1 r /\
    title r = "unknown-property" /\
    failingCode r = "unknown-failing-code".
Proof.
  intros lines.
  assert (T : readsTrigger lines 1).
  { unfold readsTrigger, running, lineRead.
    repeat split; try (vm_compute; reflexivity).
    vm_compute. lia. }
  assert (B : forall m, i (stateAfter lines 1) < m ->
                        lineAt lines m = EmptyString).
  { intros m Hm. change (i (stateAfter lines 1)) with 1 in Hm.
    destruct m as [|[|[|[|m]]]]; try lia; try reflexivity.
    unfold lineAt, lines. vm_compute JS.split.
    cbn [nth]. destruct m; reflexivity. }
  split; [exact T|]. split; [exact B|].
  exact (blank_tail_gives_defaults blankTail 1 T B).
Defined.

(** *** The overall verdict *)

Lemma success_classified (output clarityFile fn : string) :
  JS.includes "VERIFICATION SUCCESSFUL" output = true ->
  verified (parseESBMCOutput output clarityFile fn) = true /\
  failures (parseESBMCOutput output clarityFile fn) = [].
Proof.
  intros H. unfold parseESBMCOutput. rewrite H. split; reflexivity.
Qed.

(** With [VERIFICATION FAILED] and no success marker, the failures are
    the records of the counterexample parser. *)
Lemma failed_classified (output clarityFile fn : string) :
  JS.includes "VERIFICATION SUCCESSFUL" output = false ->
  JS.includes "VERIFICATION FAILED" output = true ->
  verified (parseESBMCOutput output clarityFile fn) = false /\
  failures (parseESBMCOutput output clarityFile fn)
  = parseFailingFunctions output.
Proof.
  intros H1 H2. unfold parseESBMCOutput. rewrite H1, H2.
  split; reflexivity.
Qed.

(** C2: an output that has [VERIFICATION SUCCESSFUL] anywhere inside
    is classified as verified, with no failure, whatever comes before
    and after the marker. *)
Theorem successful_marker_wins (before after clarityFile fn : string) :
  let output :=
    String.append before
      (String.append "VERIFICATION SUCCESSFUL" after) in
  verified (parseESBMCOutput output clarityFile fn) = true /\
  failures (parseESBMCOutput output clarityFile fn) = [].
Proof.
  intros output. apply success_classified.
  unfold output. apply JSFacts.includes_append.
Qed.

(** C3: the block of the sample contract gives exactly one record:
    function [deposit], line 17, title [assertion], and the [try!] line
    as failing code. *)
Theorem sample_counterexample_parsed :
  parseFailingFunctions sampleCounterexample
  = [ {| functionName := "deposit";
         lineNumber := 17%Z;
         title := "assertion";
         failingCode :=
           "try! (stx-transfer? amount tx-sender (as-contract tx-sender))"
      |} ].
Proof. vm_compute. reflexivity. Qed.

(** The same for any text after [Violated property:] on the trigger
    line, as long as the line is not itself read as a State line. *)
Lemma sample_block_any_trigger_line (tail : string) :
  occurrences JS.LF tail = 0 ->
  RegExp.exec stateLineRegex
    (JS.trim (String.append violatedProperty tail)) = None ->
  parseFailingFunctions
    (String.append
       "[Counterexample]
State 3 file sample.clar line 17 function deposit thread 0
Violated property:"
       (String.append tail
          "

assertion

try! (stx-transfer? amount tx-sender (as-contract tx-sender))"))
  = [ {| functionName := "deposit";
         lineNumber := 17%Z;
         title := "assertion";
         failingCode :=
           "try! (stx-transfer? amount tx-sender (as-contract tx-sender))"
      |} ].
Proof.
  intros NoLF NotState.
  unfold parseFailingFunctions.
  match goal with |- context [JS.split JS.LF ?t] =>
    replace (JS.split JS.LF t) with
      ["[Counterexample]";
       "State 3 file sample.clar line 17 function deposit thread 0";
       String.append violatedProperty tail;
       EmptyString; "assertion"; EmptyString;
       "try! (stx-transfer? amount tx-sender (as-contract tx-sender))"]
  end.
  2:{ symmetry.
      match goal with |- JS.split JS.LF ?t = _ =>
        replace t with
          (String.append
             (String.append
                "[Counterexample]
State 3 file sample.clar line 17 function deposit thread 0"
                (String JS.LF (String.append violatedProperty tail)))
             (String JS.LF "
assertion

try! (stx-transfer? amount tx-sender (as-contract tx-sender))"))
      end.
      - rewrite !JSFacts.split_append_sep.
        rewrite (JSFacts.split_no_sep JS.LF
                   (String.append violatedProperty tail)).
        + vm_compute. reflexivity.
        + rewrite JSFacts.occurrences_append, NoLF. reflexivity.
      - rewrite !JSFacts.append_assoc. reflexivity. }
  cbn [length].
  set (lines := _ :: _).
  change 7 with (2 + (1 + 4)). rewrite !loop_add.
  assert (E2 : loop 2 lines initialLoopState =
    {| i := 2; inCounterexampleBlock := true;
       currentFnName := Some "deposit";
       currentLineNumber := Some 17%Z; results := [] |})
    by (vm_compute; reflexivity).
  rewrite E2. cbn [loop i]. change (2 <? length lines) with true. cbv iota.
  rewrite body_trigger;
    [|reflexivity|exact NotState|apply trim_keeps_trigger].
  vm_compute. reflexivity.
Qed.

End RunnerFacts.

(* ================================================================= *)
(** ** Filler lines and list inputs *)

Module UtilsFacts.

Import JS JSMore UtilsInput Spec Spec2.




Lemma occurrences_trimStart (c : ascii) (s : string) :
  occurrences c (trimStart s) <= occurrences c s.
Proof.
  induction s as [|a s IH]; simpl; [lia|].
  destruct (isWhiteSpace a); simpl; lia.
Qed.

Lemma occurrences_trimEnd (c : ascii) (s : string) :
  occurrences c (trimEnd s) <= occurrences c s.
Proof.
  induction s as [|a s IH]; simpl; [lia|].
  destruct (trimEnd s) as [|b t].
  - destruct (isWhiteSpace a); simpl in *; lia.
  - simpl in *. lia.
Qed.

Lemma occurrences_trim (c : ascii) (s : string) :
  occurrences c (trim s) <= occurrences c s.
Proof.
  unfold trim. pose proof (occurrences_trimEnd c (trimStart s)).
  pose proof (occurrences_trimStart c s). lia.
Qed.

(** The pieces of [splitOn] hold no separator. *)
Lemma splitOn_pieces (isSep : ascii -> bool) (s x : string) (c : ascii) :
  In x (splitOn isSep s) -> isSep c = true -> occurrences c x = 0.
Proof.
  revert x; induction s as [|a s IH]; intros x Hx Hc; simpl in Hx.
  - destruct Hx as [<-|[]]. reflexivity.
  - destruct (isSep a) eqn:Ea.
    + destruct Hx as [<-|Hx]; [reflexivity|auto].
    + destruct (splitOn isSep s) as [|h t] eqn:Es.
      * destruct Hx as [<-|[]]. simpl.
        destruct (Ascii.eqb a c) eqn:E; [|reflexivity].
        apply Ascii.eqb_eq in E. congruence.
      * destruct Hx as [<-|Hx]; [|apply IH; simpl; auto].
        simpl. rewrite (IH h); [|simpl; auto|exact Hc].
        destruct (Ascii.eqb a c) eqn:E; [|reflexivity].
        apply Ascii.eqb_eq in E. congruence.
Qed.

Lemma isListSeparator_comma : isListSeparator ","%char = true.
Proof. reflexivity. Qed.

Lemma isListSeparator_lf : isListSeparator LF = true.
Proof. reflexivity. Qed.

Lemma parseListInput_clean (value : string) :
  Forall cleanEntry (parseListInput value).
Proof.
  unfold parseListInput. destruct (isFalsy value); [constructor|].
  apply Forall_forall. intros x Hx.
  apply filter_In in Hx as [Hx Hne].
  apply in_map_iff in Hx as (piece & <- & Hp).
  apply negb_true_iff, String.eqb_neq in Hne.
  repeat split.
  - exact Hne.
  - apply JSFacts.trim_idempotent.
  - pose proof (occurrences_trim ","%char piece).
    rewrite (splitOn_pieces _ _ _ _ Hp isListSeparator_comma) in H. lia.
  - pose proof (occurrences_trim LF piece).
    rewrite (splitOn_pieces _ _ _ _ Hp isListSeparator_lf) in H. lia.
Qed.

(** X2: every entry [parseListInput] returns is clean: it is not empty,
    has no whitespace around it, and holds neither a comma nor a line
    feed. *)
Theorem parseListInput_entries_clean (value : string) :
  Forall cleanEntry (parseListInput value).
Proof. apply parseListInput_clean. Qed.

Lemma splitOn_not_nil (isSep : ascii -> bool) (s : string) :
  splitOn isSep s <> [].
Proof.
  destruct s as [|c s]; simpl; [discriminate|].
  destruct (isSep c); [discriminate|].
  destruct (splitOn isSep s); discriminate.
Qed.

Lemma splitOn_append_sep (isSep : ascii -> bool) (a : string) (c : ascii)
      (b : string) :
  isSep c = true ->
  splitOn isSep (String.append a (String c b))
  = splitOn isSep a ++ splitOn isSep b.
Proof.
  intros Hc. induction a as [|x a IH]; simpl.
  - rewrite Hc. reflexivity.
  - destruct (isSep x); [now rewrite IH|].
    rewrite IH. destruct (splitOn isSep a) eqn:E; [|reflexivity].
    elim (splitOn_not_nil _ _ E).
Qed.

Lemma splitOn_clean (s : string) :
  occurrences ","%char s = 0 -> occurrences LF s = 0 ->
  splitOn isListSeparator s = [s].
Proof.
  induction s as [|a s IH]; simpl; [reflexivity|].
  unfold isListSeparator at 1.
  rewrite (Ascii.eqb_sym a LF), (Ascii.eqb_sym a ","%char).
  destruct (Ascii.eqb LF a) eqn:E1; [simpl; lia|].
  rewrite (Ascii.eqb_sym LF a) in E1.
  destruct (Ascii.eqb ","%char a) eqn:E2;
    rewrite (Ascii.eqb_sym ","%char a) in E2; rewrite ?E1, ?E2;
    simpl; [lia|].
  intros H1 H2. rewrite (IH H1 H2). reflexivity.
Qed.

Lemma splitOn_join (c : ascii) (l : list string) :
  isListSeparator c = true -> l <> [] -> Forall cleanEntry l ->
  splitOn isListSeparator (join (String c EmptyString) l) = l.
Proof.
  intros Hc Hne Hl. induction l as [|x l IH]; [congruence|].
  inversion Hl as [|? ? (_ & _ & C1 & C2) Hl']; subst.
  destruct l as [|y l].
  - simpl. apply splitOn_clean; assumption.
  - change (join (String c EmptyString) (x :: y :: l))
      with (String.append x
              (String c (join (String c EmptyString) (y :: l)))).
    rewrite (splitOn_append_sep _ _ _ _ Hc), IH; [|discriminate|exact Hl'].
    rewrite splitOn_clean by assumption. reflexivity.
Qed.

Lemma join_not_empty (sep : string) (x : string) (l : list string) :
  x <> EmptyString -> isFalsy (join sep (x :: l)) = false.
Proof.
  intros Hx. destruct x as [|a x]; [congruence|].
  destruct l; reflexivity.
Qed.

(** X3: clean entries joined with commas, or with line feeds, are read
    back as they are, in the same order. *)
Theorem parseListInput_join (l : list string) :
  Forall cleanEntry l ->
  parseListInput (join "," l) = l /\ 
  parseListInput (join (String LF EmptyString) l) = l.
Proof.
  intros Hl.
  assert (G : forall c, isListSeparator c = true ->
                        parseListInput (join (String c EmptyString) l) = l).
  { intros c Hc. destruct l as [|x l]; [reflexivity|].
    unfold parseListInput.
    inversion Hl as [|? ? (Hx & _) _]; subst.
    rewrite (join_not_empty _ _ _ Hx).
    rewrite (splitOn_join c (x :: l) Hc) by (auto; discriminate).
    clear Hx. induction Hl as [|y l' (Hne & Ht & _) _ IH]; [reflexivity|].
    cbn [map filter]. rewrite Ht.
    apply String.eqb_neq in Hne. rewrite Hne. cbn [negb].
    f_equal. exact IH. }
  split; apply G; reflexivity.
Qed.

Lemma parseListInput_join_witness :
  Forall cleanEntry ["./contracts"; "lib/token"] /\
  parseListInput "./contracts,lib/token" = ["./contracts"; "lib/token"].
Proof.
  assert (H : Forall cleanEntry ["./contracts"; "lib/token"]).
  { repeat constructor; try discriminate; reflexivity. }
  split; [exact H|]. exact (proj1 (parseListInput_join _ H)).
Defined.

End UtilsFacts.

(* ================================================================= *)
(** ** The spans of the parsed functions *)

Module BoundaryFacts.

Import Parser Spec Spec2.

Lemma join_snoc (sep : string) (l : list string) (x : string) :
  l <> [] ->
  JSMore.join sep (l ++ [x])
  = String.append (JSMore.join sep l) (String.append sep x).
Proof.
  unfold JSMore.join. induction l as [|a l IH]; [congruence|]. intros _.
  destruct l as [|b l].
  - reflexivity.
  - change (String.concat sep ((a :: b :: l) ++ [x]))
      with (String.append a
              (String.append sep (String.concat sep ((b :: l) ++ [x])))).
    rewrite IH by discriminate.
    change (String.concat sep (a :: b :: l))
      with (String.append a
              (String.append sep (String.concat sep (b :: l)))).
    now rewrite !JSFacts.append_assoc.
Qed.

Lemma linesBetween_app (done more : list string) (a b : nat) :
  1 <= a -> a <= b -> b <= length done ->
  linesBetween (done ++ more) a b = linesBetween done a b.
Proof.
  intros Ha Hab Hb. unfold linesBetween.
  rewrite skipn_app.
  replace (a - 1 - length done) with 0 by lia. cbn [skipn].
  rewrite firstn_app, length_skipn.
  replace (b - a + 1 - (length done - (a - 1))) with 0 by lia.
  cbn [firstn]. now rewrite app_nil_r.
Qed.

Lemma wellFormed_app (filePath : string) (done more : list string)
      (f : ClarityFunction) :
  wellFormed filePath done f -> wellFormed filePath (done ++ more) f.
Proof.
  intros (H1 & H2 & H3 & H4 & H5). unfold wellFormed.
  rewrite length_app, linesBetween_app by lia.
  repeat split; auto; lia.
Qed.

Lemma stronglySorted_snoc {A} (R : A -> A -> Prop) (l : list A) (y : A) :
  StronglySorted R l -> Forall (fun x => R x y) l ->
  StronglySorted R (l ++ [y]).
Proof.
  induction 1 as [|x l Hs IH Hx]; intros Hy; simpl.
  - repeat constructor.
  - inversion Hy; subst. constructor; [auto|].
    apply Forall_app; split; [exact Hx|]. repeat constructor; auto.
Qed.

(** One line more keeps the spans in order, inside the text read so
    far, and the contents equal to the text of the spans. *)
Lemma parseLine_spans (filePath : string) (done : list string)
      (x : string) (st : ParseState) :
  Forall (wellFormed filePath done) (functions st) ->
  StronglySorted before (functions st) ->
  (inFunction st = true ->
   1 <= startLine (currentFunction st) /\
   startLine (currentFunction st) <= length done /\
   file (currentFunction st) = filePath /\
   functionContent st
   = JSMore.join (String JS.LF EmptyString)
       (skipn (startLine (currentFunction st) - 1) done) /\
   Forall (fun f => endLine f < startLine (currentFunction st))
          (functions st)) ->
  let st' := parseLine filePath (length done) x st in
  Forall (wellFormed filePath (done ++ [x])) (functions st') /\
  StronglySorted before (functions st') /\
  (inFunction st' = true ->
   1 <= startLine (currentFunction st') /\
   startLine (currentFunction st') <= length (done ++ [x]) /\
   file (currentFunction st') = filePath /\
   functionContent st'
   = JSMore.join (String JS.LF EmptyString)
       (skipn (startLine (currentFunction st') - 1) (done ++ [x])) /\
   Forall (fun f => endLine f < startLine (currentFunction st'))
          (functions st')).
Proof.
  intros WF Sorted Cur.
  assert (WF' : Forall (wellFormed filePath (done ++ [x])) (functions st)).
  { eapply Forall_impl; [|exact WF]. intros f. apply wellFormed_app. }
  assert (Ends : Forall (fun f => endLine f < length done + 1)
                        (functions st)).
  { eapply Forall_impl; [|exact WF]. intros f (_ & _ & H & _). lia. }
  assert (Tail : skipn (length done) (done ++ [x]) = [x]).
  { rewrite skipn_app, skipn_all, Nat.sub_diag. reflexivity. }
  unfold parseLine. destruct (inFunction st) eqn:In; cbn [negb].
  - destruct (Cur eq_refl) as (C1 & C2 & C3 & C4 & C5).
    set (s := startLine (currentFunction st)) in *.
    assert (Grow : skipn (s - 1) (done ++ [x]) = skipn (s - 1) done ++ [x]).
    { rewrite skipn_app. replace (s - 1 - length done) with 0 by lia.
      reflexivity. }
    assert (NonEmpty : skipn (s - 1) done <> []).
    { intros E. apply (f_equal (@length _)) in E.
      rewrite length_skipn in E. simpl in E. lia. }
    assert (Text :
      String.append (functionContent st)
        (String.append (String JS.LF EmptyString) x)
      = JSMore.join (String JS.LF EmptyString) (skipn (s - 1) (done ++ [x]))).
    { rewrite Grow, join_snoc by exact NonEmpty. now rewrite C4. }
    destruct (_ =? 0)%Z;
      cbn [functions inFunction currentFunction functionContent].
    + split; [|split; [|discriminate]].
      * apply Forall_app; split; [exact WF'|]. constructor; [|constructor].
        unfold wellFormed, closeFunction.
        cbn [startLine endLine file content]. fold s.
        rewrite length_app. cbn [length].
        repeat split; try lia; auto.
        rewrite Text. unfold linesBetween. f_equal.
        rewrite firstn_all2; [reflexivity|].
        rewrite length_skipn, length_app. cbn [length]. lia.
      * apply stronglySorted_snoc; [exact Sorted|].
        eapply Forall_impl; [|exact C5]. intros f Hf.
        unfold before, closeFunction. cbn [startLine]. exact Hf.
    + split; [exact WF'|]. split; [exact Sorted|]. intros _.
      rewrite length_app. cbn [length]. fold s.
      repeat split; auto; lia.
  - destruct (RegExp.exec functionRegex x) as [m|].
    + destruct (_ =? 0)%Z;
        cbn [functions inFunction currentFunction functionContent].
      * split; [|split; [|discriminate]].
        -- apply Forall_app; split; [exact WF'|]. constructor; [|constructor].
           unfold wellFormed, closeFunction.
           cbn [startLine endLine file content].
           rewrite length_app. cbn [length].
           repeat split; try lia.
           unfold linesBetween.
           replace (length done + 1 - (length done + 1) + 1) with 1 by lia.
           replace (length done + 1 - 1) with (length done) by lia.
           rewrite Tail. reflexivity.
        -- apply stronglySorted_snoc; [exact Sorted|].
           eapply Forall_impl; [|exact Ends]. intros f Hf.
           unfold before, closeFunction. cbn [startLine]. exact Hf.
      * split; [exact WF'|]. split; [exact Sorted|]. intros _.
        cbn [startLine file]. rewrite length_app. cbn [length].
        replace (length done + 1 - 1) with (length done) by lia.
        rewrite Tail. repeat split; auto; lia.
    + split; [exact WF'|]. split; [exact Sorted|]. rewrite In. discriminate.
Qed.

Lemma parseLines_spans (filePath : string) (rest done : list string)
      (st : ParseState) :
  Forall (wellFormed filePath done) (functions st) ->
  StronglySorted before (functions st) ->
  (inFunction st = true ->
   1 <= startLine (currentFunction st) /\
   startLine (currentFunction st) <= length done /\
   file (currentFunction st) = filePath /\
   functionContent st
   = JSMore.join (String JS.LF EmptyString)
       (skipn (startLine (currentFunction st) - 1) done) /\
   Forall (fun f => endLine f < startLine (currentFunction st))
          (functions st)) ->
  Forall (wellFormed filePath (done ++ rest))
         (functions (parseLines filePath rest (length done) st)) /\
  StronglySorted before
         (functions (parseLines filePath rest (length done) st)).
Proof.
  revert done st; induction rest as [|x rest IH]; intros done st WF So Cur.
  - rewrite app_nil_r. simpl. auto.
  - destruct (parseLine_spans filePath done x st WF So Cur)
      as (WF' & So' & Cur').
    cbn [parseLines].
    replace (S (length done)) with (length (done ++ [x]))
      by (rewrite length_app; simpl; lia).
    replace (done ++ x :: rest) with ((done ++ [x]) ++ rest)
      by (now rewrite <- app_assoc).
    apply IH; assumption.
Qed.

(** X4: the functions the boundary parser returns lie inside the text
    (line numbers count from 1, the first line of a function is not
    after its last, the last is a line of the text), carry the path they
    were parsed for, and come in the order of the text without
    overlapping: each one ends before the next one begins. *)
Theorem parsed_spans_ordered (content filePath : string) :
  let lines := JS.split JS.LF content in
  Forall (fun f => 1 <= startLine f /\ startLine f <= endLine f /\
                   endLine f <= length lines /\ file f = filePath)
         (parseClarityFunctions content filePath) /\
  StronglySorted before (parseClarityFunctions content filePath).
Proof.
  intros lines. unfold parseClarityFunctions. fold lines.
  destruct (parseLines_spans filePath lines [] initialParseState)
    as [WF So]; [constructor|constructor|discriminate|].
  split; [|exact So].
  eapply Forall_impl; [|exact WF].
  intros f (H1 & H2 & H3 & H4 & _). auto.
Qed.

(** X5: the raw content of every function the boundary parser returns
    is the text of the lines of its span, first to last, joined by line
    feeds: nothing of these lines is dropped or changed. *)
Theorem parsed_content_is_span_text (content filePath : string) :
  Forall (fun f =>
            Parser.content f
            = JSMore.join (String JS.LF EmptyString)
                (linesBetween (JS.split JS.LF content)
                              (startLine f) (endLine f)))
         (parseClarityFunctions content filePath).
Proof.
  unfold parseClarityFunctions.
  destruct (parseLines_spans filePath (JS.split JS.LF content) []
                             initialParseState)
    as [WF _]; [constructor|constructor|discriminate|].
  eapply Forall_impl; [|exact WF].
  intros f (_ & _ & _ & _ & H). exact H.
Qed.

End BoundaryFacts.

(* ================================================================= *)
(** ** What a match tells about the text *)

Module RegExpFacts.

Import RegExp Spec Parser Runner.

Lemma length_append (a b : string) :
  String.length (String.append a b) = String.length a + String.length b.
Proof. induction a as [|c a IH]; simpl; [reflexivity|now rewrite IH]. Qed.

Lemma stripPrefix_inv (p s s' : string) :
  stripPrefix p s = Some s' -> s = String.append p s'.
Proof.
  revert s; induction p as [|a p IH]; intros s H; simpl in H.
  - now injection H as ->.
  - destruct s as [|b s]; [discriminate|].
    destruct (Ascii.eqb a b) eqn:E; [|discriminate].
    apply Ascii.eqb_eq in E. subst b. simpl. f_equal. auto.
Qed.

(** A successful [c+] has consumed a run of characters of the class,
    at least one, and the continuation has succeeded after it. *)
Lemma plusGreedy_inv {R} (cls : ascii -> bool)
      (k : string -> nat -> option R) (s : string) (pos : nat) (r : R) :
  plusGreedy cls k s pos = Some r ->
  exists run s',
    s = String.append run s' /\ run <> EmptyString /\
    (forall c, cls c = false -> occurrences c run = 0) /\
    k s' (pos + String.length run) = Some r.
Proof.
  revert pos; induction s as [|c s IH]; intros pos H; simpl in H;
    [discriminate|].
  destruct (cls c) eqn:Ec; [|discriminate].
  destruct (plusGreedy cls k s (S pos)) as [r'|] eqn:E.
  - injection H as ->. destruct (IH _ E) as (run & s' & -> & _ & All & K).
    exists (String c run), s'. repeat split; [discriminate| |].
    + intros d Hd. simpl. rewrite (All d Hd).
      destruct (Ascii.eqb c d) eqn:Ecd; [|reflexivity].
      apply Ascii.eqb_eq in Ecd. congruence.
    + simpl. rewrite <- K. f_equal. lia.
  - exists (String c EmptyString), s. repeat split; [discriminate| |].
    + intros d Hd. simpl.
      destruct (Ascii.eqb c d) eqn:Ecd; [|reflexivity].
      apply Ascii.eqb_eq in Ecd. congruence.
    + simpl. rewrite <- H. f_equal. lia.
Qed.

Lemma plusLazy_inv {R} (cls : ascii -> bool)
      (k : string -> nat -> option R) (s : string) (pos : nat) (r : R) :
  plusLazy cls k s pos = Some r ->
  exists run s',
    s = String.append run s' /\ run <> EmptyString /\
    (forall c, cls c = false -> occurrences c run = 0) /\
    k s' (pos + String.length run) = Some r.
Proof.
  revert pos; induction s as [|c s IH]; intros pos H; simpl in H;
    [discriminate|].
  destruct (cls c) eqn:Ec; [|discriminate].
  destruct (k s (S pos)) as [r'|] eqn:E.
  - injection H as ->.
    exists (String c EmptyString), s. repeat split; [discriminate| |].
    + intros d Hd. simpl.
      destruct (Ascii.eqb c d) eqn:Ecd; [|reflexivity].
      apply Ascii.eqb_eq in Ecd. congruence.
    + simpl. rewrite <- E. f_equal. lia.
  - destruct (IH _ H) as (run & s' & -> & _ & All & K).
    exists (String c run), s'. repeat split; [discriminate| |].
    + intros d Hd. simpl. rewrite (All d Hd).
      destruct (Ascii.eqb c d) eqn:Ecd; [|reflexivity].
      apply Ascii.eqb_eq in Ecd. congruence.
    + simpl. rewrite <- K. f_equal. lia.
Qed.

Lemma alternatives_inv {R} (alts : list string)
      (k : string -> nat -> option R) (s : string) (pos : nat) (r : R) :
  alternatives alts k s pos = Some r ->
  exists a s',
    In a alts /\ s = String.append a s' /\
    k s' (pos + String.length a) = Some r.
Proof.
  induction alts as [|a alts IH]; simpl; [discriminate|].
  destruct (stripPrefix a s) as [s'|] eqn:E.
  - destruct (k s' (pos + String.length a)) as [r'|] eqn:K.
    + intros [= <-]. exists a, s'. repeat split; auto.
      now apply stripPrefix_inv.
    + intros H. destruct (IH H) as (b & t & Hb & Hs & Hk).
      exists b, t; auto.
  - intros H. destruct (IH H) as (b & t & Hb & Hs & Hk). exists b, t; auto.
Qed.

Lemma search_inv (re : list node) (s : string) (start st : nat)
      (r : nat * captures) :
  search re s start = Some (st, r) ->
  exists pre suf,
    s = String.append pre suf /\ st = start + String.length pre /\
    matchHere re noCaptures suf st = Some r.
Proof.
  revert start; induction s as [|c s IH]; intros start H; simpl in H.
  - destruct (matchHere re noCaptures EmptyString start) eqn:E;
      [|discriminate].
    injection H as <- <-. exists EmptyString, EmptyString.
    repeat split; try (simpl; lia); try exact E;
      try (rewrite Nat.add_0_r; exact E).
  - destruct (matchHere re noCaptures (String c s) start) eqn:E.
    + injection H as <- <-. exists EmptyString, (String c s).
      repeat split; try (simpl; lia); try exact E;
      try (rewrite Nat.add_0_r; exact E).
    + destruct (IH _ H) as (pre & suf & -> & -> & M).
      exists (String c pre), suf. repeat split; [simpl; lia|].
      replace (start + String.length (String c pre))
        with (S start + String.length pre) by (simpl; lia).
      exact M.
Qed.

Lemma substring_middle (x a y : string) :
  String.substring (String.length x) (String.length a)
                   (String.append x (String.append a y)) = a.
Proof.
  induction x as [|c x IH]; simpl; [|exact IH].
  induction a as [|d a IHa]; simpl.
  - destruct y; reflexivity.
  - now rewrite IHa.
Qed.

Lemma substring_at (x a y : string) (p q : nat) :
  p = String.length x -> q = p + String.length a ->
  String.substring p (q - p) (String.append x (String.append a y)) = a.
Proof.
  intros -> ->. replace (String.length x + String.length a - String.length x)
    with (String.length a) by lia.
  apply substring_middle.
Qed.

(** What the groups of a header match hold: the keyword after
    [define-], and a run of characters other than [)]. *)
Lemma header_match_inv (line : string) (m : MatchResult) :
  exec functionRegex line = Some m ->
  In (group m 1) ["public"; "private"; "read-only"] /\
  group m 2 <> EmptyString /\
  occurrences ")"%char (group m 2) = 0.
Proof.
  unfold exec. destruct (search functionRegex line 0) as [[st [e c]]|] eqn:S;
    [|discriminate].
  intros [= <-]. apply search_inv in S as (pre & suf & -> & -> & M).
  unfold functionRegex in M. cbn [matchHere] in M.
  destruct (stripPrefix "(define-" suf) as [s1|] eqn:P1; [|discriminate].
  apply stripPrefix_inv in P1. subst suf.
  apply alternatives_inv in M as (a & s2 & Ha & -> & M).
  cbn [matchHere] in M.
  apply plusGreedy_inv in M as (ws & s3 & -> & _ & _ & M).
  cbn [matchHere] in M.
  destruct (stripPrefix "(" s3) as [s4|] eqn:P2; [|discriminate].
  apply stripPrefix_inv in P2. subst s3.
  apply plusGreedy_inv in M as (run & s5 & -> & Hne & Hrun & M).
  cbn [matchHere] in M. injection M as <- <-.
  unfold group.
  cbn [groups closed closeGroup openGroup opened assoc Nat.eqb subject].
  assert (G1 :
    String.substring (String.length pre + 8)
      (String.length pre + 8 + String.length a - (String.length pre + 8))
      (String.append pre (String.append "(define-"
         (String.append a (String.append ws
            (String.append "(" (String.append run s5)))))) = a).
  { rewrite <- (JSFacts.append_assoc pre "(define-").
    apply substring_at; [rewrite length_append; reflexivity|reflexivity]. }
  assert (G2 :
    String.substring
      (String.length pre + 8 + String.length a + String.length ws + 1)
      (String.length pre + 8 + String.length a + String.length ws + 1
       + String.length run
       - (String.length pre + 8 + String.length a + String.length ws + 1))
      (String.append pre (String.append "(define-"
         (String.append a (String.append ws
            (String.append "(" (String.append run s5)))))) = run).
  { rewrite <- (JSFacts.append_assoc ws "(").
    rewrite <- (JSFacts.append_assoc a).
    rewrite <- (JSFacts.append_assoc "(define-").
    rewrite <- (JSFacts.append_assoc pre).
    apply substring_at; [|reflexivity].
    rewrite !length_append. simpl. lia. }
  rewrite G1, G2. repeat split; auto.
Qed.

(** What the groups of a State line match hold: a run of digits, and
    a run of characters that are not whitespace. *)
Lemma state_groups (line : string) (m : MatchResult) :
  exec stateLineRegex line = Some m ->
  (group m 1 <> EmptyString /\
   forall c, JS.isDigit c = false -> occurrences c (group m 1) = 0) /\
  (group m 2 <> EmptyString /\
   forall c, JS.isWhiteSpace c = true -> occurrences c (group m 2) = 0).
Proof.
  unfold exec. destruct (search stateLineRegex line 0) as [[st [e c]]|] eqn:S;
    [|discriminate].
  intros [= <-]. apply search_inv in S as (pre & suf & -> & -> & M).
  unfold stateLineRegex in M. cbn [matchHere] in M.
  destruct (stripPrefix "State" suf) as [t|] eqn:P; [|discriminate].
  apply stripPrefix_inv in P. subst suf.
  apply plusGreedy_inv in M as (w1 & t1 & -> & _ & _ & M).
  cbn [matchHere] in M.
  apply plusGreedy_inv in M as (d1 & t2 & -> & _ & _ & M).
  cbn [matchHere] in M.
  apply plusGreedy_inv in M as (w2 & t3 & -> & _ & _ & M).
  cbn [matchHere] in M.
  destruct (stripPrefix "file" t3) as [t4|] eqn:P; [|discriminate].
  apply stripPrefix_inv in P. subst t3.
  apply plusGreedy_inv in M as (w3 & t5 & -> & _ & _ & M).
  cbn [matchHere] in M.
  apply plusLazy_inv in M as (f & t6 & -> & _ & _ & M).
  cbn [matchHere] in M.
  apply plusGreedy_inv in M as (w4 & t7 & -> & _ & _ & M).
  cbn [matchHere] in M.
  destruct (stripPrefix "line" t7) as [t8|] eqn:P; [|discriminate].
  apply stripPrefix_inv in P. subst t7.
  apply plusGreedy_inv in M as (w5 & t9 & -> & _ & _ & M).
  cbn [matchHere] in M.
  apply plusGreedy_inv in M as (num & t10 & -> & Hnum & Dnum & M).
  cbn [matchHere] in M.
  apply plusGreedy_inv in M as (w6 & t11 & -> & _ & _ & M).
  cbn [matchHere] in M.
  destruct (stripPrefix "function" t11) as [t12|] eqn:P; [|discriminate].
  apply stripPrefix_inv in P. subst t11.
  apply plusGreedy_inv in M as (w7 & t13 & -> & _ & _ & M).
  cbn [matchHere] in M.
  apply plusGreedy_inv in M as (fn & t14 & -> & Hfn & Sfn & M).
  cbn [matchHere] in M.
  apply plusGreedy_inv in M as (w8 & t15 & -> & _ & _ & M).
  cbn [matchHere] in M.
  destruct (stripPrefix "thread" t15) as [t16|] eqn:P; [|discriminate].
  apply stripPrefix_inv in P. subst t15.
  apply plusGreedy_inv in M as (w9 & t17 & -> & _ & _ & M).
  cbn [matchHere] in M.
  apply plusGreedy_inv in M as (d2 & t18 & -> & _ & _ & M).
  cbn [matchHere] in M. injection M as <- <-.
  unfold group.
  cbn [groups closed closeGroup openGroup opened assoc Nat.eqb subject].
  set (X1 := String.append pre (String.append "State" (String.append w1
               (String.append d1 (String.append w2 (String.append "file"
               (String.append w3 (String.append f (String.append w4
               (String.append "line" w5)))))))))).
  set (X2 := String.append X1 (String.append num (String.append w6
               (String.append "function" w7)))).
  match goal with
  | |- context [String.substring ?p1 (?q1 - ?p1) ?subj] =>
      match goal with
      | |- context [String.substring ?p2 (?q2 - ?p2) subj] =>
          tryif constr_eq p1 p2 then fail else
          assert (G1 : String.substring p1 (q1 - p1) subj = num);
          [|assert (G2 : String.substring p2 (q2 - p2) subj = fn)]
      end
  end.
  - match goal with |- String.substring _ _ ?subj = _ =>
      replace subj with (String.append X1 (String.append num
        (String.append w6 (String.append "function" (String.append w7
        (String.append fn (String.append w8 (String.append "thread"
        (String.append w9 (String.append d2 t18))))))))))
        by (unfold X1; rewrite !JSFacts.append_assoc; reflexivity)
    end.
    apply substring_at; [|reflexivity].
    unfold X1. rewrite !length_append. simpl. lia.
  - match goal with |- String.substring _ _ ?subj = _ =>
      replace subj with (String.append X2 (String.append fn
        (String.append w8 (String.append "thread"
        (String.append w9 (String.append d2 t18))))))
        by (unfold X2, X1; rewrite !JSFacts.append_assoc; reflexivity)
    end.
    apply substring_at; [|reflexivity].
    unfold X2, X1. rewrite !length_append. simpl. lia.
  - rewrite G1, G2. repeat split; auto.
    intros c Hc. apply Sfn. unfold cls_S. now rewrite Hc.
Qed.

End RegExpFacts.

(* ================================================================= *)
(** ** The fields of the parsed functions *)

Module HeaderFacts.

Import Parser Spec Spec2.

Lemma split_piece_occurrences (sep c : ascii) (s x : string) :
  In x (JS.split sep s) -> occurrences c x <= occurrences c s.
Proof.
  revert x; induction s as [|a s IH]; intros x Hx; simpl in Hx.
  - destruct Hx as [<-|[]]. lia.
  - destruct (Ascii.eqb a sep).
    + destruct Hx as [<-|Hx]; simpl; [lia|]. specialize (IH _ Hx). lia.
    + destruct (JS.split sep s) as [|h t] eqn:Es.
      * elim (JSFacts.split_not_nil _ _ Es).
      * destruct Hx as [<-|Hx].
        -- simpl. specialize (IH h (or_introl eq_refl)). lia.
        -- simpl. specialize (IH x (or_intror Hx)). lia.
Qed.

Lemma split_piece_no_sep (sep : ascii) (s x : string) :
  In x (JS.split sep s) -> occurrences sep x = 0.
Proof.
  revert x; induction s as [|a s IH]; intros x Hx; simpl in Hx.
  - destruct Hx as [<-|[]]. reflexivity.
  - destruct (Ascii.eqb a sep) eqn:Ea.
    + destruct Hx as [<-|Hx]; [reflexivity|auto].
    + destruct (JS.split sep s) as [|h t] eqn:Es.
      * elim (JSFacts.split_not_nil _ _ Es).
      * destruct Hx as [<-|Hx]; [|apply IH; right; exact Hx].
        simpl. rewrite Ea. apply IH. left; reflexivity.
Qed.

Lemma hd_split_in (sep : ascii) (s : string) :
  In (hd EmptyString (JS.split sep s)) (JS.split sep s).
Proof.
  destruct (JS.split sep s) eqn:E; [elim (JSFacts.split_not_nil _ _ E)|].
  left; reflexivity.
Qed.

(** A property of the fields a header sets is a property of every
    function of the result. *)
Lemma parseLines_header_fields (P : ClarityFunction -> Prop)
      (filePath : string) :
  (forall f n text, P f -> P (closeFunction f n text)) ->
  (forall n line m,
      RegExp.exec functionRegex line = Some m ->
      P {| name := hd EmptyString
                      (JS.split " "%char (JS.trim (RegExp.group m 2)));
           type := RegExp.group m 1;
           startLine := n + 1; endLine := 0;
           content := line; file := filePath |}) ->
  forall lines n st,
    Forall P (functions st) ->
    (inFunction st = true -> P (currentFunction st)) ->
    Forall P (functions (parseLines filePath lines n st)).
Proof.
  intros Close Header.
  induction lines as [|x lines IH]; intros n st HF HC; [exact HF|].
  cbn [parseLines]. unfold parseLine.
  destruct (inFunction st) eqn:In; cbn [negb].
  - destruct (_ =? 0)%Z; apply IH;
      cbn [functions inFunction currentFunction]; auto; try discriminate.
    apply Forall_app; split; [exact HF|]. constructor; [|constructor].
    apply Close. auto.
  - destruct (RegExp.exec functionRegex x) as [m|] eqn:X.
    + specialize (Header n x m X).
      destruct (_ =? 0)%Z; apply IH;
        cbn [functions inFunction currentFunction]; auto; try discriminate.
      apply Forall_app; split; [exact HF|]. constructor; [|constructor].
      apply Close. exact Header.
    + apply IH; [exact HF|]. rewrite In. discriminate.
Qed.

(** X6: the [type] of every parsed function is one of [public],
    [private] and [read-only], the word after [define-] in its header
    (never one of the [define-...] forms its declared type lists); its
    [name] holds neither a space nor a closing parenthesis. *)
Theorem parsed_type_and_name (content filePath : string) :
  Forall (fun f =>
            In (type f) ["public"; "private"; "read-only"] /\
            occurrences " "%char (name f) = 0 /\
            occurrences ")"%char (name f) = 0)
         (parseClarityFunctions content filePath).
Proof.
  unfold parseClarityFunctions.
  apply parseLines_header_fields.
  - intros f n text H. exact H.
  - intros n line m X. cbn [type name].
    destruct (RegExpFacts.header_match_inv line m X) as (T & _ & NoParen).
    split; [exact T|]. split.
    + apply (split_piece_no_sep " "%char (JS.trim (RegExp.group m 2))).
      apply hd_split_in.
    + pose proof (split_piece_occurrences " "%char ")"%char
                    (JS.trim (RegExp.group m 2)) _
                    (hd_split_in " "%char (JS.trim (RegExp.group m 2)))).
      pose proof (UtilsFacts.occurrences_trim ")"%char (RegExp.group m 2)).
      lia.
  - constructor.
  - discriminate.
Qed.

End HeaderFacts.

(* ================================================================= *)
(** ** More on the comparator and on change detection *)

Module CompareFacts.

Import Parser Spec Spec2 ParserFacts.

Lemma flat_map_singletons {A B} (f : A -> list B) (g : A -> B)
      (l : list A) :
  (forall x, f x = [g x]) -> flat_map f l = map g l.
Proof.
  intros H. induction l as [|x l IH]; simpl; [reflexivity|].
  now rewrite H, IH.
Qed.

Lemma compare_no_base (head : list ClarityFunction) :
  compareAndIdentifyChanges [] head
  = map (fun f => {| func := f; changeType := added |}) head.
Proof.
  unfold compareAndIdentifyChanges. cbn [flat_map app].
  apply flat_map_singletons. reflexivity.
Qed.

Lemma compare_no_head (base : list ClarityFunction) :
  compareAndIdentifyChanges base []
  = map (fun f => {| func := f; changeType := deleted |}) base.
Proof.
  unfold compareAndIdentifyChanges. cbn [flat_map]. rewrite app_nil_r.
  apply flat_map_singletons. reflexivity.
Qed.

(** X7: against an empty base the comparator marks every head function
    "added", against an empty head it marks every base function
    "deleted", one record each and in the order of the input, whether
    or not names occur several times. *)
Theorem compare_with_empty_side (l : list ClarityFunction) :
  compareAndIdentifyChanges [] l
  = map (fun f => {| func := f; changeType := added |}) l /\
  compareAndIdentifyChanges l []
  = map (fun f => {| func := f; changeType := deleted |}) l.
Proof. split; [apply compare_no_base|apply compare_no_head]. Qed.

Lemma changesInFile_compare
      (getFileContent : string -> string -> string)
      (baseRef headRef file : string) :
  changesInFile getFileContent baseRef headRef file
  = compareAndIdentifyChanges
      (parseClarityFunctions (getFileContent baseRef file) file)
      (parseClarityFunctions (getFileContent headRef file) file).
Proof.
  unfold changesInFile.
  destruct (JS.isFalsy (getFileContent baseRef file)) eqn:B.
  - apply isFalsy_true in B. rewrite B, parse_empty_content.
    symmetry. apply compare_no_base.
  - destruct (JS.isFalsy (getFileContent headRef file)) eqn:H;
      [|reflexivity].
    apply isFalsy_true in H. rewrite H, parse_empty_content.
    symmetry. apply compare_no_head.
Qed.

(** X8: the two shortcuts of change detection for content that is
    missing on one side give what the general path gives: for every
    file, the changes are the output of the comparator on the functions
    parsed from the base content and from the head content. *)
Theorem changesInFile_is_comparison
        (getFileContent : string -> string -> string)
        (baseRef headRef file : string) :
  changesInFile getFileContent baseRef headRef file
  = compareAndIdentifyChanges
      (parseClarityFunctions (getFileContent baseRef file) file)
      (parseClarityFunctions (getFileContent headRef file) file).
Proof. apply changesInFile_compare. Qed.

(** X9: exchanging base and head exchanges "added" and "deleted": a
    function is reported added in one direction exactly when it is
    reported deleted in the other. *)
Theorem compare_swap (base head : list ClarityFunction)
        (f : ClarityFunction) :
  (In {| func := f; changeType := added |}
      (compareAndIdentifyChanges base head) <->
   In {| func := f; changeType := deleted |}
      (compareAndIdentifyChanges head base)) /\
  (In {| func := f; changeType := deleted |}
      (compareAndIdentifyChanges base head) <->
   In {| func := f; changeType := added |}
      (compareAndIdentifyChanges head base)).
Proof.
  rewrite !in_compare. cbn [changeType func].
  split; split;
    intros [(T & _)|[(T & H)|(T & H)]]; try discriminate T; auto.
Qed.

(** X10: when no name occurs twice, a head revision that holds the
    same functions as the base revision, in any order and at any line,
    gives no record: moving functions around is not a change. *)
Theorem compare_reordered (base head : list ClarityFunction) :
  NoDup (map name base) -> Permutation base head ->
  compareAndIdentifyChanges base head = [].
Proof.
  intros U Perm.
  destruct (compareAndIdentifyChanges base head) as [|c rest] eqn:E;
    [reflexivity|exfalso].
  assert (Hc : In c (compareAndIdentifyChanges base head))
    by (rewrite E; left; reflexivity).
  apply in_compare in Hc
    as [(_ & F & b & Hb & Hn & D)|[(_ & Hin & N)|(_ & Hin & N)]].
  - apply firstNamed_In in F as [Hh _].
    apply (Permutation_in _ (Permutation_sym Perm)) in Hh.
    apply D. f_equal. apply (unique_name base); auto.
  - apply (N (func c)); [|reflexivity].
    apply (Permutation_in _ Perm). exact Hin.
  - apply (N (func c)); [|reflexivity].
    apply (Permutation_in _ (Permutation_sym Perm)). exact Hin.
Qed.

Lemma compare_reordered_witness :
  NoDup (map name [Samples.dup_a; Samples.sampleG]) /\
  Permutation [Samples.dup_a; Samples.sampleG] [Samples.sampleG; Samples.dup_a] /\
  compareAndIdentifyChanges [Samples.dup_a; Samples.sampleG]
                            [Samples.sampleG; Samples.dup_a] = [].
Proof.
  assert (U : NoDup (map name [Samples.dup_a; Samples.sampleG])).
  { repeat constructor; simpl; intuition discriminate. }
  assert (P : Permutation [Samples.dup_a; Samples.sampleG]
                          [Samples.sampleG; Samples.dup_a])
    by apply perm_swap.
  split; [exact U|]. split; [exact P|].
  exact (compare_reordered _ _ U P).
Defined.

Lemma parsed_file (content filePath : string) :
  Forall (fun f => file f = filePath)
         (parseClarityFunctions content filePath).
Proof.
  unfold parseClarityFunctions.
  apply HeaderFacts.parseLines_header_fields;
    [intros f n text H; exact H|reflexivity|constructor|discriminate].
Qed.

(** X11: every record of a detection run belongs to one of the files of
    the run and carries that path; a "deleted" record carries a
    function parsed from the base content of its file, an "added" or
    "modified" record one parsed from the head content. *)
Theorem detected_records_attributed
        (getFileContent : string -> string -> string)
        (baseRef headRef : string) (filteredFiles : list string) :
  Forall (fun c : ChangedFunction =>
            In (file c) filteredFiles /\
            (changeType c = deleted ->
             In (func c)
                (parseClarityFunctions
                   (getFileContent baseRef (file c)) (file c))) /\
            (changeType c <> deleted ->
             In (func c)
                (parseClarityFunctions
                   (getFileContent headRef (file c)) (file c))))
         (detectChangedFunctions getFileContent baseRef headRef
                                 filteredFiles).
Proof.
  apply Forall_forall. intros c Hc.
  unfold detectChangedFunctions in Hc.
  apply in_flat_map in Hc as (f & Hf & Hc).
  rewrite changesInFile_compare in Hc.
  pose proof (parsed_file (getFileContent baseRef f) f) as FB.
  pose proof (parsed_file (getFileContent headRef f) f) as FH.
  rewrite Forall_forall in FB, FH.
  apply in_compare in Hc
    as [(T & F & _)|[(T & Hin & _)|(T & Hin & _)]].
  - apply firstNamed_In in F as [Hin _].
    rewrite (FH _ Hin). repeat split; auto. congruence.
  - rewrite (FB _ Hin). repeat split; auto. congruence.
  - rewrite (FH _ Hin). repeat split; auto. congruence.
Qed.

End CompareFacts.

(* ================================================================= *)
(** ** The files of a diff *)

Module FilesFacts.

Import Files Spec Spec2.

Lemma slice_suffix (n : nat) (s : string) :
  exists pre, s = String.append pre (JS.slice n s).
Proof.
  revert s; induction n as [|n IH]; intros s.
  - exists EmptyString. destruct s; reflexivity.
  - destruct s as [|c s]; [exists EmptyString; reflexivity|].
    destruct (IH s) as [pre E]. exists (String c pre).
    simpl. now rewrite <- E.
Qed.

Lemma endsWith_suffix (p s : string) :
  JSMore.endsWith p s = true -> exists stem, s = String.append stem p.
Proof.
  unfold JSMore.endsWith. intros H.
  apply andb_true_iff in H as [_ H]. apply String.eqb_eq in H.
  destruct (slice_suffix (String.length s - String.length p) s) as [pre E].
  exists pre. now rewrite H in E.
Qed.

(** X12: every path [getModifiedFiles] keeps from the output of the
    diff is one of its lines without the whitespace around it, ends
    with [.clar], and lies in one of the contract directories (its path
    relative to that directory neither starts with [..] nor is
    absolute); with no contract directory, no path is kept. *)
Theorem modified_files_are_contracts
        (relative : string -> string -> string)
        (isAbsolute : string -> bool)
        (output : string) (contractsDir : list string) :
  Forall (fun f =>
            In f (map JS.trim (JS.split JS.LF output)) /\
            JS.trim f = f /\
            (exists stem, f = String.append stem ".clar") /\
            exists dir,
              In dir contractsDir /\
              JS.startsWith ".." (relative dir f) = false /\
              isAbsolute (relative dir f) = false)
         (modifiedContractFiles relative isAbsolute output contractsDir)
  /\ modifiedContractFiles relative isAbsolute output [] = [].
Proof.
  split.
  - apply Forall_forall. intros f Hf. unfold modifiedContractFiles in Hf.
    apply filter_In in Hf as [Hf Dir]. apply filter_In in Hf as [Hf Ext].
    split; [exact Hf|]. split.
    + apply in_map_iff in Hf as (l & <- & _).
      apply JSFacts.trim_idempotent.
    + split; [apply endsWith_suffix; exact Ext|].
      unfold inContractsDir in Dir.
      apply existsb_exists in Dir as (dir & Hd & H).
      apply andb_true_iff in H as [H1 H2].
      apply negb_true_iff in H1, H2. exists dir; auto.
  - unfold modifiedContractFiles.
    generalize (filter (JSMore.endsWith ".clar")
                       (map JS.trim (JS.split JS.LF output))).
    intros l. induction l as [|x l IH]; [reflexivity|exact IH].
Qed.

End FilesFacts.

(* ================================================================= *)
(** ** More on the checker output *)

Module OutputFacts.

Import Runner Sarif Spec Spec2 RunnerFacts.

(** X13: a result is verified exactly when the output holds the text
    [VERIFICATION SUCCESSFUL] somewhere; no other output is ever
    reported as verified. *)
Theorem verified_iff_success_marker (output clarityFile fn : string) :
  verified (parseESBMCOutput output clarityFile fn) = true <->
  exists before after,
    output = String.append before
               (String.append "VERIFICATION SUCCESSFUL" after).
Proof.
  split.
  - unfold parseESBMCOutput.
    destruct (JS.includes "VERIFICATION SUCCESSFUL" output) eqn:S.
    + intros _. apply JSFacts.includes_inv. exact S.
    + destruct (JS.includes "VERIFICATION FAILED" output); discriminate.
  - intros (before & after & ->).
    apply success_classified, JSFacts.includes_append.
Qed.

Lemma parseDigits_nonneg (s : string) (acc : Z) :
  (0 <= acc)%Z -> (0 <= JS.parseDigits s acc)%Z.
Proof.
  revert acc; induction s as [|c s IH]; intros acc H;
    cbn [JS.parseDigits]; [exact H|].
  destruct (JS.isDigit c); [|exact H]. apply IH.
  pose proof (Zle_0_nat (nat_of_ascii c - 48)). lia.
Qed.

Lemma orElse_clean (line d : string) :
  d <> EmptyString -> JS.trim d = d ->
  JS.orElse (JS.trim line) d <> EmptyString /\
  JS.trim (JS.orElse (JS.trim line) d) = JS.orElse (JS.trim line) d.
Proof.
  intros Hd Td. destruct (JS.trim line) as [|c t] eqn:E; simpl.
  - auto.
  - split; [discriminate|]. rewrite <- E. apply JSFacts.trim_idempotent.
Qed.

(** The records held and the annotation carried after [n] iterations. *)
Lemma stateAfter_fields (lines : list string) (n : nat) :
  let s := stateAfter lines n in
  Forall
    (fun r =>
       (functionName r <> EmptyString /\
        forall c, JS.isWhiteSpace c = true ->
                  occurrences c (functionName r) = 0) /\
       ((lineNumber r = (-1)%Z /\ functionName r = "unknown_function") \/
        (0 <= lineNumber r)%Z) /\
       (title r <> EmptyString /\ JS.trim (title r) = title r) /\
       (failingCode r <> EmptyString /\
        JS.trim (failingCode r) = failingCode r))
    (results s) /\
  ((currentFnName s = None /\ currentLineNumber s = None) \/
   (exists G L,
       currentFnName s = Some G /\ currentLineNumber s = Some L /\
       G <> EmptyString /\
       (forall c, JS.isWhiteSpace c = true -> occurrences c G = 0) /\
       (0 <= L)%Z)).
Proof.
  induction n as [|n (Records & Annot)].
  - split; [constructor|left; split; reflexivity].
  - cbn zeta in *. destruct (running_dec lines n) as [R|R];
      [|rewrite (stateAfter_finished _ _ R); auto].
    rewrite (stateAfter_running _ _ R).
    set (s := stateAfter lines n) in *.
    destruct (body_cases lines s)
      as [(_ & ->)|[(_ & _ & ->)|[(_ & _ & m & X & ->)
         |[(_ & _ & _ & _ & ->)|(_ & _ & _ & _ & ->)]]]];
      unfold advance, emitFailure;
      cbn [results currentFnName currentLineNumber]; auto.
    + split; [exact Records|]. right.
      destruct (RegExpFacts.state_groups _ _ X) as (_ & G1 & G2).
      exists (RegExp.group m 2), (JS.parseInt (RegExp.group m 1)).
      repeat split; auto. apply parseDigits_nonneg. lia.
    + split; [|exact Annot].
      apply Forall_app; split; [exact Records|].
      constructor; [|constructor].
      cbn [functionName lineNumber title failingCode].
      unfold lineAt.
      split; [|split; [|split]].
      * destruct Annot as [(-> & _)|(G & L & -> & _ & H1 & H2 & _)];
          cbn [orDefault]; [|auto].
        split; [discriminate|].
        intros c Hc. destruct c as [[] [] [] [] [] [] [] []];
          try discriminate Hc; reflexivity.
      * destruct Annot as [(-> & ->)|(G & L & _ & -> & _ & _ & H3)];
          cbn [orDefault]; [left; auto|right; exact H3].
      * apply orElse_clean; [discriminate|reflexivity].
      * apply orElse_clean; [discriminate|reflexivity].
Qed.

(** X14: every record of the counterexample parser has a function name
    that is not empty and holds no whitespace, a line number that is
    either -1, together with the name [unknown_function], or not
    negative, and a title and a failing code that are not empty and
    have no whitespace around them. *)
Theorem records_have_clean_fields (clarOutput : string) :
  Forall
    (fun r =>
       (functionName r <> EmptyString /\
        forall c, JS.isWhiteSpace c = true ->
                  occurrences c (functionName r) = 0) /\
       ((lineNumber r = (-1)%Z /\ functionName r = "unknown_function") \/
        (0 <= lineNumber r)%Z) /\
       (title r <> EmptyString /\ JS.trim (title r) = title r) /\
       (failingCode r <> EmptyString /\
        JS.trim (failingCode r) = failingCode r))
    (parseFailingFunctions clarOutput).
Proof.
  rewrite (parseFailingFunctions_stateAfter
             _ (length (JS.split JS.LF clarOutput))) by lia.
  apply stateAfter_fields.
Qed.

Lemma markerCount_none (lines : list string) :
  (forall l, In l lines -> JS.trim l <> counterexampleMarker) ->
  markerCount lines = 0.
Proof.
  unfold markerCount. induction lines as [|x lines IH]; intros H;
    [reflexivity|].
  cbn [filter].
  destruct (String.eqb (JS.trim x) counterexampleMarker) eqn:E.
  - apply String.eqb_eq in E. elim (H x (or_introl eq_refl) E).
  - apply IH. intros l Hl. apply H. right; exact Hl.
Qed.

Lemma no_marker_no_record (clarOutput : string) :
  (forall l, In l (JS.split JS.LF clarOutput) ->
             JS.trim l <> counterexampleMarker) ->
  parseFailingFunctions clarOutput = [].
Proof.
  intros H. set (lines := JS.split JS.LF clarOutput) in *.
  rewrite (parseFailingFunctions_stateAfter _ (length lines))
    by (unfold lines; lia).
  fold lines.
  pose proof (records_paid_by_markers lines (length lines)) as P.
  pose proof (markerCount_firstn_le lines
                (i (stateAfter lines (length lines)))) as Q.
  rewrite (markerCount_none lines H) in Q.
  destruct (results (stateAfter lines (length lines))); [reflexivity|].
  simpl in P. lia.
Qed.

(** X15: an output without any [[Counterexample]] line gives no
    record; when such an output reports [VERIFICATION FAILED], the
    result is not verified and has no failure, so that the report holds
    no finding for it. *)
Theorem failed_without_counterexample (output clarityFile fn : string) :
  (forall l, In l (JS.split JS.LF output) ->
             JS.trim l <> counterexampleMarker) ->
  parseFailingFunctions output = [] /\
  (JS.includes "VERIFICATION SUCCESSFUL" output = false ->
   JS.includes "VERIFICATION FAILED" output = true ->
   verified (parseESBMCOutput output clarityFile fn) = false /\
   failures (parseESBMCOutput output clarityFile fn) = [] /\
   convertToSARIFResults [parseESBMCOutput output clarityFile fn] = []).
Proof.
  intros H. pose proof (no_marker_no_record output H) as E.
  split; [exact E|]. intros S F.
  destruct (failed_classified output clarityFile fn S F) as [V Fl].
  rewrite E in Fl. repeat split; auto.
  unfold convertToSARIFResults. cbn [flat_map]. rewrite V, Fl. reflexivity.
Qed.

Lemma failed_without_counterexample_witness :
  (forall l, In l (JS.split JS.LF "VERIFICATION FAILED") ->
             JS.trim l <> counterexampleMarker) /\
  verified (parseESBMCOutput "VERIFICATION FAILED" "a.clar" "f") = false /\
  convertToSARIFResults
    [parseESBMCOutput "VERIFICATION FAILED" "a.clar" "f"] = [].
Proof.
  assert (H : forall l, In l (JS.split JS.LF "VERIFICATION FAILED") ->
                        JS.trim l <> counterexampleMarker).
  { intros l [<-|[]]. vm_compute. discriminate. }
  split; [exact H|].
  destruct (failed_without_counterexample
              "VERIFICATION FAILED" "a.clar" "f" H) as [_ K].
  destruct (K eq_refl eq_refl) as (V & _ & C). split; assumption.
Defined.

(** The loop reads the lines through [lineAt] and [length] only. *)
Lemma skipFiller_ext (lines1 lines2 : list string) (fuel n : nat) :
  length lines1 = length lines2 ->
  (forall k, lineAt lines1 k = lineAt lines2 k) ->
  skipFiller fuel lines1 n = skipFiller fuel lines2 n.
Proof.
  intros HL HA. revert n; induction fuel as [|fuel IH]; intros n;
    [reflexivity|].
  simpl. rewrite HL, HA. destruct (_ && _); auto.
Qed.

Lemma body_ext (lines1 lines2 : list string) (s : LoopState) :
  length lines1 = length lines2 ->
  (forall k, lineAt lines1 k = lineAt lines2 k) ->
  body lines1 s = body lines2 s.
Proof.
  intros HL HA. unfold body, emitFailure.
  rewrite ?HL, ?(skipFiller_ext lines1 lines2 _ _ HL HA), ?HA.
  reflexivity.
Qed.

Lemma loop_ext (lines1 lines2 : list string) (n : nat) (s : LoopState) :
  length lines1 = length lines2 ->
  (forall k, lineAt lines1 k = lineAt lines2 k) ->
  loop n lines1 s = loop n lines2 s.
Proof.
  intros HL HA. revert s; induction n as [|n IH]; intros s; [reflexivity|].
  simpl. rewrite HL, (body_ext _ _ _ HL HA), IH. reflexivity.
Qed.

Lemma lineAt_map_trim (lines : list string) (k : nat) :
  lineAt lines k = nth k (map JS.trim lines) EmptyString.
Proof.
  unfold lineAt. change EmptyString with (JS.trim EmptyString) at 2.
  symmetry. apply map_nth.
Qed.

(** X16: the counterexample parser only looks at the lines with the
    whitespace around them removed: two outputs whose lines agree up to
    indentation, trailing blanks and carriage returns give the same
    records. *)
Theorem records_ignore_surrounding_whitespace (output1 output2 : string) :
  map JS.trim (JS.split JS.LF output1)
  = map JS.trim (JS.split JS.LF output2) ->
  parseFailingFunctions output1 = parseFailingFunctions output2.
Proof.
  intros H. unfold parseFailingFunctions.
  assert (HL : length (JS.split JS.LF output1)
               = length (JS.split JS.LF output2)).
  { apply (f_equal (@length _)) in H. now rewrite !length_map in H. }
  rewrite HL. f_equal. apply loop_ext; [exact HL|].
  intros k. now rewrite !lineAt_map_trim, H.
Qed.

Lemma records_ignore_surrounding_whitespace_witness :
  map JS.trim (JS.split JS.LF Samples.sampleCounterexample)
  = map JS.trim (JS.split JS.LF Samples.sampleCounterexampleCRLF) /\
  parseFailingFunctions Samples.sampleCounterexample
  = parseFailingFunctions Samples.sampleCounterexampleCRLF.
Proof.
  assert (H : map JS.trim (JS.split JS.LF Samples.sampleCounterexample)
              = map JS.trim
                    (JS.split JS.LF Samples.sampleCounterexampleCRLF))
    by (vm_compute; reflexivity).
  split; [exact H|].
  exact (records_ignore_surrounding_whitespace _ _ H).
Defined.

(** X17: at a trigger, the title is the first line after it that is
    not blank and the failing code is the first line after the title
    that is not blank, however many blank lines lie between; the loop
    goes on after the failing code, so that the two lines are not read
    again as markers, State lines or triggers. *)
Theorem record_from_next_two_lines (clarOutput : string) (k j j' : nat) :
  let lines := JS.split JS.LF clarOutput in
  readsTrigger lines k ->
  i (stateAfter lines k) < j -> j < j' -> j' < length lines ->
  (forall n, i (stateAfter lines k) < n < j ->
             lineAt lines n = EmptyString) ->
  lineAt lines j <> EmptyString ->
  (forall n, j < n < j' -> lineAt lines n = EmptyString) ->
  lineAt lines j' <> EmptyString ->
  exists r,
    emittedAt lines k r /\
    title r = lineAt lines j /\ failingCode r = lineAt lines j' /\
    i (stateAfter lines (S k)) = S j'.
Proof.
  intros lines T Hj Hjj Hj' Blank1 Title Blank2 Code.
  pose proof (trigger_emits lines k T) as E.
  set (s := stateAfter lines k) in *.
  assert (I1 : skipFiller (length lines) lines (S (i s)) = j)
    by (apply skipFiller_finds; auto; try lia;
        intros n Hn; apply Blank1; lia).
  assert (I2 : skipFiller (length lines) lines (S j) = j')
    by (apply skipFiller_finds; auto; try lia;
        intros n Hn; apply Blank2; lia).
  eexists. split; [|split; [|split]].
  - unfold emittedAt. fold s. rewrite E. unfold emitFailure.
    cbn [results]. reflexivity.
  - cbn [title]. rewrite I1.
    destruct (lineAt lines j); [contradiction|reflexivity].
  - cbn [failingCode]. rewrite I1, I2.
    destruct (lineAt lines j'); [contradiction|reflexivity].
  - rewrite E. unfold emitFailure. cbn [i]. now rewrite I1, I2.
Qed.

Lemma record_from_next_two_lines_witness :
  let lines := JS.split JS.LF Samples.sampleCounterexample in
  readsTrigger lines 2 /\
  exists r,
    emittedAt lines 2 r /\
    title r = lineAt lines 4 /\ failingCode r = lineAt lines 6 /\
    i (stateAfter lines 3) = 7.
Proof.
  intros lines.
  assert (T : readsTrigger lines 2).
  { unfold readsTrigger, running, lineRead.
    repeat split; try (vm_compute; reflexivity).
    vm_compute. lia. }
  split; [exact T|].
  apply (record_from_next_two_lines Samples.sampleCounterexample 2 4 6 T).
  - vm_compute. lia.
  - lia.
  - vm_compute. lia.
  - intros n Hn.
    assert (I2 : i (stateAfter (JS.split JS.LF Samples.sampleCounterexample)
                               2) = 2) by (vm_compute; reflexivity).
    rewrite I2 in Hn. assert (n = 3) as -> by lia. reflexivity.
  - vm_compute. discriminate.
  - intros n Hn. assert (n = 5) as -> by lia. reflexivity.
  - vm_compute. discriminate.
Defined.

End OutputFacts.

(* ================================================================= *)
(** ** Grouping the changed functions by file *)

Module IndexFacts.

Import Parser Runner Index Spec Spec2.

Lemma mapHas_In (k : string) (m : FunctionsByFile) :
  mapHas k m = true <-> In k (map fst m).
Proof.
  induction m as [|[k' v] m IH]; simpl; [split; [discriminate|tauto]|].
  rewrite orb_true_iff, IH, String.eqb_eq. split; intros [H|H]; auto.
Qed.

Lemma mapSet_keys (k : string) (v : list string) (m : FunctionsByFile) :
  mapHas k m = false -> map fst (mapSet k v m) = map fst m ++ [k].
Proof.
  induction m as [|[k' v'] m IH]; simpl; [reflexivity|].
  intros H. apply orb_false_iff in H as [H1 H2]. rewrite H1. simpl.
  now rewrite IH.
Qed.

Lemma mapPush_keys (k x : string) (m : FunctionsByFile) :
  map fst (mapPush k x m) = map fst m.
Proof.
  induction m as [|[k' v'] m IH]; simpl; [reflexivity|].
  destruct (String.eqb k k'); simpl; [reflexivity|now rewrite IH].
Qed.

Lemma mapGet_set_new (k k' : string) (v : list string)
      (m : FunctionsByFile) :
  mapHas k m = false ->
  mapGet k' (mapSet k v m)
  = if String.eqb k' k then Some v else mapGet k' m.
Proof.
  induction m as [|[k0 v0] m IH]; simpl; [reflexivity|].
  intros H. apply orb_false_iff in H as [H1 H2]. rewrite H1. simpl.
  rewrite (IH H2).
  destruct (String.eqb k' k0) eqn:E0; [|reflexivity].
  apply String.eqb_eq in E0. subst k0.
  rewrite String.eqb_sym, H1. reflexivity.
Qed.

Lemma mapGet_push (k k' x : string) (m : FunctionsByFile) :
  mapGet k' (mapPush k x m)
  = if String.eqb k' k
    then option_map (fun v => v ++ [x]) (mapGet k m)
    else mapGet k' m.
Proof.
  induction m as [|[k0 v0] m IH]; simpl.
  - destruct (String.eqb k' k); reflexivity.
  - destruct (String.eqb k k0) eqn:E; simpl.
    + apply String.eqb_eq in E. subst k0.
      destruct (String.eqb k' k); reflexivity.
    + rewrite IH. destruct (String.eqb k' k) eqn:E'; [|reflexivity].
      apply String.eqb_eq in E'. subst k'. rewrite E. reflexivity.
Qed.

Lemma namesOfFile_app (f : string) (l1 l2 : list ChangedFunction) :
  namesOfFile f (l1 ++ l2) = namesOfFile f l1 ++ namesOfFile f l2.
Proof. unfold namesOfFile. now rewrite filter_app, map_app. Qed.

Lemma namesOfFile_absent (f : string) (l : list ChangedFunction) :
  ~ In f (map (fun c : ChangedFunction => file c) l) ->
  namesOfFile f l = [].
Proof.
  unfold namesOfFile. induction l as [|c l IH]; simpl; [reflexivity|].
  intros H. destruct (String.eqb (file c) f) eqn:E.
  - apply String.eqb_eq in E. elim H. auto.
  - apply IH. tauto.
Qed.

(** The keys and the entries of the grouping. *)
Lemma group_invariant (l : list ChangedFunction) :
  map fst (groupFunctionsByFile l)
  = rev (nodup string_dec
           (rev (map (fun c : ChangedFunction => file c) l))) /\
  forall f,
    mapGet f (groupFunctionsByFile l)
    = if in_dec string_dec f (map (fun c : ChangedFunction => file c) l)
      then Some (namesOfFile f l) else None.
Proof.
  induction l as [|c l (Keys & Get)] using rev_ind.
  - split; [reflexivity|]. intros f. reflexivity.
  - unfold groupFunctionsByFile in *. rewrite fold_left_app. cbn [fold_left].
    match goal with
    | |- context [fold_left ?step l []] =>
        set (m := fold_left step l []) in *
    end.
    assert (Has : mapHas (file c) m = true <->
                  In (file c) (map (fun c : ChangedFunction => file c) l)).
    { rewrite mapHas_In, Keys, <- in_rev, nodup_In, <- in_rev. tauto. }
    split.
    + rewrite mapPush_keys, map_app, rev_app_distr. cbn [map rev app nodup].
      destruct (mapHas (file c) m) eqn:E; cbn [negb].
      * destruct (in_dec string_dec (file c) _) as [_|N]; [exact Keys|].
        elim N. rewrite <- in_rev. apply Has. reflexivity.
      * rewrite (mapSet_keys _ _ _ E), Keys.
        destruct (in_dec string_dec (file c) _) as [Y|_]; [|reflexivity].
        rewrite <- in_rev in Y. apply Has in Y. congruence.
    + intros f. rewrite mapGet_push, namesOfFile_app, map_app.
      unfold namesOfFile at 2. cbn [filter map].
      destruct (String.eqb f (file c)) eqn:E.
      * apply String.eqb_eq in E. subst f.
        rewrite String.eqb_refl. cbn [map].
        destruct (in_dec string_dec (file c) _) as [_|N];
          [|elim N; apply in_or_app; right; left; reflexivity].
        destruct (mapHas (file c) m) eqn:Em; cbn [negb].
        -- rewrite Get.
           destruct (in_dec string_dec (file c) _) as [_|N];
             [reflexivity|]. elim N. apply Has. reflexivity.
        -- rewrite (mapGet_set_new _ _ _ _ Em), String.eqb_refl.
           rewrite namesOfFile_absent; [reflexivity|].
           intros Y. apply Has in Y. congruence.
      * rewrite String.eqb_sym, E. cbn [map]. rewrite app_nil_r.
        assert (G : mapGet f
                      (if negb (mapHas (file c) m)
                       then mapSet (file c) [] m else m) = mapGet f m).
        { destruct (mapHas (file c) m) eqn:Em; cbn [negb]; [reflexivity|].
          now rewrite (mapGet_set_new _ _ _ _ Em), E. }
        rewrite G, Get.
        apply String.eqb_neq in E.
        destruct (in_dec string_dec f _) as [Y|N];
          destruct (in_dec string_dec f _) as [Y'|N']; try reflexivity.
        -- elim N'. apply in_or_app; left; exact Y.
        -- apply in_app_or in Y' as [Y'|[Y'|[]]]; [contradiction|].
           congruence.
Qed.

(** X18: grouping by file keeps every function and its order: the keys
    are the files of the changed functions, each once, in the order in
    which the files first occur; under a file are the names of the
    changed functions of that file, in their order; a file without
    changed function is not a key. *)
Theorem groupFunctionsByFile_entries (changedFunctions : list ChangedFunction) :
  let files := map (fun c : ChangedFunction => file c) changedFunctions in
  let grouped := groupFunctionsByFile changedFunctions in
  NoDup (map fst grouped) /\
  map fst grouped = rev (nodup string_dec (rev files)) /\
  (forall f, In f files ->
             mapGet f grouped = Some (namesOfFile f changedFunctions)) /\
  (forall f, ~ In f files -> mapGet f grouped = None).
Proof.
  intros files grouped.
  destruct (group_invariant changedFunctions) as [Keys Get].
  fold files grouped in Keys, Get.
  split; [rewrite Keys; apply NoDup_rev, NoDup_nodup|].
  split; [exact Keys|].
  split; intros f Hf; rewrite Get;
    destruct (in_dec string_dec f files); tauto.
Qed.

End IndexFacts.

(* ================================================================= *)
(** ** Running the checker on the changed functions *)

Module JobsFacts.

Import Runner Sarif Jobs Index Comment Spec Spec2.

Section Container.

Variable runInContainer : string -> string -> string -> string + string.
Variable getContractName : string -> string.

Lemma parseESBMCOutput_labels (output file fn : string) :
  clarityFile (parseESBMCOutput output file fn) = file /\
  resultFunctionName (parseESBMCOutput output file fn) = fn /\
  rawOutput (parseESBMCOutput output file fn) = output.
Proof.
  unfold parseESBMCOutput.
  destruct (JS.includes "VERIFICATION SUCCESSFUL" output);
    [|destruct (JS.includes "VERIFICATION FAILED" output)];
    repeat split; reflexivity.
Qed.

Lemma runESBMC_labels
      (file astFile fn flags repo version : string) :
  clarityFile (runESBMC runInContainer getContractName
                        file astFile fn flags repo version) = file /\
  resultFunctionName (runESBMC runInContainer getContractName
                               file astFile fn flags repo version) = fn.
Proof.
  unfold runESBMC. destruct (runInContainer _ _ _) as [output|error].
  - destruct (parseESBMCOutput_labels output file fn) as (H1 & H2 & _).
    auto.
  - split; reflexivity.
Qed.

(** X19: [runESBMCOnFunctions] gives one result for every function of
    every file that has an AST file, in the order of the files and of
    their functions, each carrying the file and the function it was run
    for; a file without AST file (or with an empty AST path) gives no
    result. *)
Theorem one_result_per_job
        (changedFunctions : list (string * list string))
        (astMap : string -> option string)
        (flags repo version : string) :
  map (fun r => (clarityFile r, resultFunctionName r))
      (runESBMCOnFunctions runInContainer getContractName
                           changedFunctions astMap flags repo version)
  = flat_map
      (fun entry : string * list string =>
         match astMap (fst entry) with
         | Some (String _ _) => map (pair (fst entry)) (snd entry)
         | _ => []
         end)
      changedFunctions.
Proof.
  unfold runESBMCOnFunctions.
  induction changedFunctions as [|[file fns] rest IH]; [reflexivity|].
  cbn [flat_map fst snd]. rewrite map_app, IH. f_equal.
  destruct (astMap file) as [[|c a]|]; cbn [JS.isFalsy]; try reflexivity.
  rewrite map_map. apply map_ext. intros fn.
  destruct (runESBMC_labels file (String c a) fn flags repo version)
    as [-> ->].
  reflexivity.
Qed.

(** X20: a run of the checker that ends in an error, and an output
    without any verdict, are never reported as verified, and each gives
    exactly one finding, at line 1 of the contract: the first under the
    rule [clarity-verify-execution-error] with the text of the error in
    its message, the second under [clarity-verify-unknown-error]. *)
Theorem degraded_results_give_one_finding
        (file astFile fn flags repo version : string) :
  (forall error,
      runInContainer repo version
        (esbmcCmd getContractName file astFile fn flags) = inr error ->
      convertToSARIFResults
        [runESBMC runInContainer getContractName
                  file astFile fn flags repo version]
      = [ {| ruleId := Rule "clarity-verify-execution-error";
             messageText :=
               String.append "Verification failed in function '"
                 (String.append fn
                    (String.append "': "
                       (String.append "ESBMC execution failed: " error)));
             uri := file; startLine := 1%Z; startColumn := 1%Z |} ]) /\
  (forall output,
      runInContainer repo version
        (esbmcCmd getContractName file astFile fn flags) = inl output ->
      JS.includes "VERIFICATION SUCCESSFUL" output = false ->
      JS.includes "VERIFICATION FAILED" output = false ->
      convertToSARIFResults
        [runESBMC runInContainer getContractName
                  file astFile fn flags repo version]
      = [ {| ruleId := Rule "clarity-verify-unknown-error";
             messageText :=
               String.append "Verification failed in function '"
                 (String.append fn
                    (String.append "': "
                       "ESBMC did not produce a clear verification result"));
             uri := file; startLine := 1%Z; startColumn := 1%Z |} ]).
Proof.
  split.
  - intros error E. unfold runESBMC. rewrite E. reflexivity.
  - intros output E S F. unfold runESBMC, parseESBMCOutput.
    rewrite E, S, F. reflexivity.
Qed.

Variable generateASTs :
  list string -> string -> string -> string -> option string.



End Container.


End JobsFacts.

(* ================================================================= *)
(** ** The configuration *)

Module ConfigFacts.

Import Index Spec Spec2.

Lemma orElse_not_empty (s d : string) :
  d <> EmptyString -> JS.orElse s d <> EmptyString.
Proof. intros H. destruct s; [exact H|discriminate]. Qed.

Lemma orElse_given (s d : string) :
  s <> EmptyString -> JS.orElse s d = s.
Proof. intros H. destruct s; [congruence|reflexivity]. Qed.

(** X23: whatever the inputs and the context are, the configuration has
    a base and a head reference, flags, a container version and two
    container repositories that are not empty, and lists of contract
    directories and exclusions with clean entries; a reference given as
    input is used as it is, before the pull request and the defaults
    [main] and [HEAD]; and [failOnIssue] is off only for the input
    [false]. *)
Theorem config_is_complete (getInput : string -> string)
        (pullRequest : option (string * string)) :
  let config := getActionConfig getInput pullRequest in
  (baseRef config <> EmptyString /\ headRef config <> EmptyString /\
   esbmcFlags config <> EmptyString /\
   containerVersion config <> EmptyString /\
   astContainerRepo config <> EmptyString /\
   esbmcContainerRepo config <> EmptyString) /\
  (Forall cleanEntry (contractsDir config) /\
   Forall cleanEntry (excludedContracts config)) /\
  ((getInput "base_ref" <> EmptyString ->
    baseRef config = getInput "base_ref") /\
   (getInput "head_ref" <> EmptyString ->
    headRef config = getInput "head_ref")) /\
  (failOnIssue config = false <-> getInput "fail_on_issue" = "false").
Proof.
  intros config. unfold config, getActionConfig.
  cbn [baseRef headRef esbmcFlags containerVersion astContainerRepo
       esbmcContainerRepo contractsDir excludedContracts failOnIssue].
  split; [|split; [|split]].
  - repeat split; apply orElse_not_empty; discriminate.
  - split; apply UtilsFacts.parseListInput_clean.
  - split; intros H.
    + destruct (getInput "base_ref") as [|c t]; [congruence|].
      destruct pullRequest as [[b h]|]; reflexivity.
    + destruct (getInput "head_ref") as [|c t]; [congruence|].
      destruct pullRequest as [[b h]|]; reflexivity.
  - rewrite negb_false_iff. apply String.eqb_eq.
Qed.

(** Without any input and outside a pull request, the defaults. *)
Example config_defaults :
  let config := getActionConfig (fun _ => EmptyString) None in
  contractsDir config = ["./"] /\ excludedContracts config = [] /\
  baseRef config = "main" /\ headRef config = "HEAD" /\
  failOnIssue config = true.
Proof. repeat split; reflexivity. Qed.

End ConfigFacts.

(* ================================================================= *)
(** ** The report and its rules *)

Module ReportFacts.

Import Runner Sarif Report Spec Spec2.

Lemma mapTitleToRuleId_cases (title : string) :
  (exists rule, mapTitleToRuleId title = Rule rule /\
                In rule (map id defineRules)) \/
  (mapTitleToRuleId title = Inherited title /\ In title objectPrototype).
Proof.
  unfold mapTitleToRuleId, titleMap. cbn [lookup].
  repeat match goal with
         | |- context [String.eqb title ?k] =>
             destruct (String.eqb title k);
             [left; eexists; split; [reflexivity|simpl; tauto]|]
         end.
  destruct (existsb (String.eqb title) objectPrototype) eqn:E.
  - right. split; [reflexivity|].
    apply existsb_exists in E as (p & Hp & Ep).
    apply String.eqb_eq in Ep. now subst p.
  - left. eexists; split; [reflexivity|simpl; tauto].
Qed.

(** X24: every finding of a report names a rule that the report
    declares, or comes from a failure whose title is the name of a
    property that every JavaScript object inherits (such as
    [constructor]), in which case the rule identifier is no string of
    the table; in particular, when no title is such a name, the rule of
    every finding is declared. *)
Theorem findings_use_declared_rules (esbmcResults : list ESBMCResult) :
  let report := generateSARIF esbmcResults in
  Forall (fun s =>
            (exists rule, ruleId s = Rule rule /\
                          In rule (map id (rules report))) \/
            (exists property,
                ruleId s = Inherited property /\
                In property objectPrototype))
         (runResults report) /\
  ((forall r f, In r esbmcResults -> In f (failures r) ->
                ~ In (title f) objectPrototype) ->
   Forall (fun s => exists rule,
               ruleId s = Rule rule /\ In rule (map id (rules report)))
          (runResults report)).
Proof.
  intros report. unfold report, generateSARIF. cbn [runResults rules].
  split.
  - apply Forall_forall. intros s Hs.
    apply SarifFacts.in_convert in Hs as (r & f & _ & _ & _ & ->).
    cbn [ruleId toSARIFResult].
    destruct (mapTitleToRuleId_cases (title f)) as [H|[H1 H2]];
      [left; exact H|right; eauto].
  - intros Safe. apply Forall_forall. intros s Hs.
    apply SarifFacts.in_convert in Hs as (r & f & Hr & _ & Hf & ->).
    cbn [ruleId toSARIFResult].
    destruct (mapTitleToRuleId_cases (title f)) as [H|[_ H2]];
      [exact H|]. elim (Safe r f Hr Hf H2).
Qed.

End ReportFacts.

(* ================================================================= *)
(** ** The summary *)

Module SummaryFacts.

Import Runner Summary Spec Spec2.








Section Platform.

Variable basename : string -> string.
Variable partyPopper : string.


End Platform.

End SummaryFacts.

(* ================================================================= *)
(** ** Parsing the content of a parsed function again *)

Module RoundTripFacts.

Import Parser Spec Spec2 BoundaryFacts.

Lemma split_join (sep : ascii) (l : list string) :
  l <> [] -> Forall (fun x => occurrences sep x = 0) l ->
  JS.split sep (JSMore.join (String sep EmptyString) l) = l.
Proof.
  intros Hne Hl. induction l as [|x l IH]; [congruence|].
  inversion Hl as [|? ? Hx Hl']; subst.
  destruct l as [|y l].
  - simpl. apply JSFacts.split_no_sep. exact Hx.
  - change (JSMore.join (String sep EmptyString) (x :: y :: l))
      with (String.append x
              (String sep (JSMore.join (String sep EmptyString) (y :: l)))).
    rewrite JSFacts.split_append_sep, IH; [|discriminate|exact Hl'].
    rewrite JSFacts.split_no_sep by exact Hx. reflexivity.
Qed.

Lemma parseLines_snoc (filePath : string) (l : list string) (x : string)
      (n : nat) (st : ParseState) :
  parseLines filePath (l ++ [x]) n st
  = parseLine filePath (n + length l) x (parseLines filePath l n st).
Proof. rewrite ParserFacts.parseLines_app. reflexivity. Qed.

(** One line more: the functions closed so far are found again by
    parsing the lines of their span alone, and so is the open one. *)
Lemma parseLine_roundtrip (filePath : string) (done : list string)
      (x : string) (st : ParseState) :
  Forall (wellFormed filePath done) (functions st) ->
  (inFunction st = true ->
   1 <= startLine (currentFunction st) /\
   startLine (currentFunction st) <= length done) ->
  Forall (fun f =>
            functions
              (parseLines filePath
                 (linesBetween done (startLine f) (endLine f))
                 0 initialParseState) = [rebased f])
         (functions st) ->
  (inFunction st = true ->
   let alone :=
     parseLines filePath
       (skipn (startLine (currentFunction st) - 1) done)
       0 initialParseState in
   inFunction alone = true /\ functions alone = [] /\
   openParens alone = openParens st /\
   functionContent alone = functionContent st /\
   name (currentFunction alone) = name (currentFunction st) /\
   type (currentFunction alone) = type (currentFunction st) /\
   file (currentFunction alone) = file (currentFunction st) /\
   startLine (currentFunction alone) = 1) ->
  let st' := parseLine filePath (length done) x st in
  Forall (fun f =>
            functions
              (parseLines filePath
                 (linesBetween (done ++ [x]) (startLine f) (endLine f))
                 0 initialParseState) = [rebased f])
         (functions st') /\
  (inFunction st' = true ->
   let alone :=
     parseLines filePath
       (skipn (startLine (currentFunction st') - 1) (done ++ [x]))
       0 initialParseState in
   inFunction alone = true /\ functions alone = [] /\
   openParens alone = openParens st' /\
   functionContent alone = functionContent st' /\
   name (currentFunction alone) = name (currentFunction st') /\
   type (currentFunction alone) = type (currentFunction st') /\
   file (currentFunction alone) = file (currentFunction st') /\
   startLine (currentFunction alone) = 1).
Proof.
  intros WF Cur RT Alone.
  assert (RT' :
    Forall (fun f =>
              functions
                (parseLines filePath
                   (linesBetween (done ++ [x]) (startLine f) (endLine f))
                   0 initialParseState) = [rebased f])
           (functions st)).
  { rewrite Forall_forall in *. intros f Hf.
    destruct (WF f Hf) as (W1 & W2 & W3 & _).
    rewrite linesBetween_app by lia. apply RT. exact Hf. }
  assert (Tail : skipn (length done) (done ++ [x]) = [x]).
  { rewrite skipn_app, skipn_all, Nat.sub_diag. reflexivity. }
  unfold parseLine. destruct (inFunction st) eqn:In; cbn [negb].
  - destruct (Cur eq_refl) as (C1 & C2).
    destruct (Alone eq_refl) as (A1 & A2 & A3 & A4 & A5 & A6 & A7 & A8).
    set (s := startLine (currentFunction st)) in *.
    assert (Grow : skipn (s - 1) (done ++ [x]) = skipn (s - 1) done ++ [x]).
    { rewrite skipn_app. replace (s - 1 - length done) with 0 by lia.
      reflexivity. }
    assert (Len : length (skipn (s - 1) done) = length done - (s - 1))
      by apply length_skipn.
    set (alone := parseLines filePath (skipn (s - 1) done) 0
                             initialParseState) in *.
    assert (Step :
      parseLines filePath (skipn (s - 1) (done ++ [x])) 0 initialParseState
      = parseLine filePath (length done - (s - 1)) x alone).
    { rewrite Grow, parseLines_snoc. fold alone. now rewrite Len. }
    destruct (countParens x (openParens st) =? 0)%Z eqn:D;
      cbn [functions inFunction currentFunction functionContent openParens].
    + split; [|discriminate].
      apply Forall_app; split; [exact RT'|]. constructor; [|constructor].
      unfold closeFunction at 1 2. cbn [startLine endLine]. fold s.
      assert (Span : linesBetween (done ++ [x]) s (length done + 1)
                     = skipn (s - 1) (done ++ [x])).
      { unfold linesBetween. apply firstn_all2.
        rewrite length_skipn, length_app. cbn [length]. lia. }
      rewrite Span, Step. unfold parseLine. rewrite A1. cbn [negb].
      rewrite A3, A4, D. cbn [functions]. rewrite A2. cbn [app].
      f_equal. unfold rebased, closeFunction.
      cbn [name type startLine endLine content file]. fold s.
      rewrite A5, A6, A7, A8. f_equal. lia.
    + split; [exact RT'|]. intros _. cbn zeta. fold s. rewrite Step.
      unfold parseLine. rewrite A1. cbn [negb]. rewrite A3, A4, D.
      cbn [functions inFunction currentFunction functionContent openParens].
      repeat split; auto.
  - destruct (RegExp.exec functionRegex x) as [m|] eqn:X.
    + assert (First :
        parseLines filePath [x] 0 initialParseState
        = parseLine filePath 0 x initialParseState) by reflexivity.
      destruct (countParens (JS.slice (RegExp.index m + 1) x) 1 =? 0)%Z
        eqn:D;
        cbn [functions inFunction currentFunction functionContent
             openParens].
      * split; [|discriminate].
        apply Forall_app; split; [exact RT'|]. constructor; [|constructor].
        unfold closeFunction at 1 2. cbn [startLine endLine].
        assert (Span : linesBetween (done ++ [x]) (length done + 1)
                                    (length done + 1) = [x]).
        { unfold linesBetween.
          replace (length done + 1 - (length done + 1) + 1) with 1 by lia.
          replace (length done + 1 - 1) with (length done) by lia.
          now rewrite Tail. }
        rewrite Span, First. unfold parseLine.
        cbn [inFunction initialParseState negb]. rewrite X, D.
        unfold rebased, closeFunction.
        cbn [name type startLine endLine content file].
        replace (length done + 1 - (length done + 1) + 1) with 1 by lia.
        reflexivity.
      * split; [exact RT'|]. intros _. cbn zeta. cbn [startLine].
        replace (length done + 1 - 1) with (length done) by lia.
        rewrite Tail, First. unfold parseLine.
        cbn [inFunction initialParseState negb]. rewrite X, D.
        cbn [functions inFunction currentFunction functionContent
             openParens name type file startLine].
        repeat split; auto.
    + split; [exact RT'|]. rewrite In. discriminate.
Qed.

Lemma parseLines_roundtrip (filePath : string) (rest done : list string)
      (st : ParseState) :
  Forall (wellFormed filePath done) (functions st) ->
  StronglySorted before (functions st) ->
  (inFunction st = true ->
   1 <= startLine (currentFunction st) /\
   startLine (currentFunction st) <= length done /\
   file (currentFunction st) = filePath /\
   functionContent st
   = JSMore.join (String JS.LF EmptyString)
       (skipn (startLine (currentFunction st) - 1) done) /\
   Forall (fun f => endLine f < startLine (currentFunction st))
          (functions st)) ->
  Forall (fun f =>
            functions
              (parseLines filePath
                 (linesBetween done (startLine f) (endLine f))
                 0 initialParseState) = [rebased f])
         (functions st) ->
  (inFunction st = true ->
   let alone :=
     parseLines filePath
       (skipn (startLine (currentFunction st) - 1) done)
       0 initialParseState in
   inFunction alone = true /\ functions alone = [] /\
   openParens alone = openParens st /\
   functionContent alone = functionContent st /\
   name (currentFunction alone) = name (currentFunction st) /\
   type (currentFunction alone) = type (currentFunction st) /\
   file (currentFunction alone) = file (currentFunction st) /\
   startLine (currentFunction alone) = 1) ->
  Forall (fun f =>
            functions
              (parseLines filePath
                 (linesBetween (done ++ rest) (startLine f) (endLine f))
                 0 initialParseState) = [rebased f])
         (functions (parseLines filePath rest (length done) st)).
Proof.
  revert done st; induction rest as [|x rest IH];
    intros done st WF So Cur RT Alone.
  - rewrite app_nil_r. exact RT.
  - destruct (parseLine_spans filePath done x st WF So Cur)
      as (WF' & So' & Cur').
    destruct (parseLine_roundtrip filePath done x st WF) as (RT' & Alone');
      auto.
    { intros H. destruct (Cur H) as (H1 & H2 & _). auto. }
    cbn [parseLines].
    replace (S (length done)) with (length (done ++ [x]))
      by (rewrite length_app; simpl; lia).
    replace (done ++ x :: rest) with ((done ++ [x]) ++ rest)
      by (now rewrite <- app_assoc).
    apply IH; assumption.
Qed.

Lemma linesBetween_pieces (lines : list string) (a b : nat) (x : string) :
  In x (linesBetween lines a b) -> In x lines.
Proof.
  unfold linesBetween. intros H.
  rewrite <- (firstn_skipn (a - 1) lines). apply in_or_app. right.
  rewrite <- (firstn_skipn (b - a + 1) (skipn (a - 1) lines)).
  apply in_or_app. left. exact H.
Qed.

(** X26: parsing the raw content of a parsed function on its own gives
    exactly that function again, now starting at line 1: the content of
    a function is all that the boundary parser needs to find its name,
    its type and its end. *)
Theorem parsed_content_parses_back (content filePath : string) :
  Forall (fun f =>
            parseClarityFunctions (Parser.content f) filePath = [rebased f])
         (parseClarityFunctions content filePath).
Proof.
  set (lines := JS.split JS.LF content).
  destruct (parseLines_spans filePath lines [] initialParseState)
    as [WF _]; [constructor|constructor|discriminate|].
  pose proof (parseLines_roundtrip filePath lines [] initialParseState)
    as RT.
  cbn [app length] in WF, RT.
  specialize (RT (Forall_nil _) (SSorted_nil _)).
  specialize (RT ltac:(discriminate) (Forall_nil _) ltac:(discriminate)).
  unfold parseClarityFunctions at 2. fold lines.
  rewrite Forall_forall in *. intros f Hf.
  destruct (WF f Hf) as (W1 & W2 & W3 & _ & W5).
  unfold parseClarityFunctions. rewrite W5. fold lines.
  rewrite split_join; [apply RT; exact Hf| |].
  - intros E. apply (f_equal (@length _)) in E. unfold linesBetween in E.
    rewrite length_firstn, length_skipn in E. simpl in E. lia.
  - apply Forall_forall. intros x Hx.
    apply (HeaderFacts.split_piece_no_sep JS.LF content).
    fold lines. eapply linesBetween_pieces; exact Hx.
Qed.

End RoundTripFacts.
